(** * lab 6: virtual keyboard with undo/redo and a saved state

    A shallow embedding of [lab 6/main.py]: the four [Command] classes, the
    [VirtualKeyboard] (key bindings, history, undo stack), the
    [KeyboardMemento] built by [from_keyboard], and [load_state].

    Python objects are shared: the command bound to a key is the very object
    a history entry points to.  Objects therefore live in a [heap], and the
    binding table and the history entries hold references into it.

    Conventions: a Python [str] is a [string], one [ascii] per character; a
    Python [int] is a [Z]; a [dict] is the list of its items in insertion
    order; a list grows and shrinks at its end.  The file system is not
    modelled: [load_state] takes what [open] and [json.load] produced, and
    what [json.dump] writes is read back unchanged. *)

From Stdlib Require Import ZArith String Ascii List DecimalString.
From stdpp Require Import base option list strings.

Open Scope string_scope.
Open Scope list_scope.

(** ** Python values used by the program *)

(** [str(z)] for a Python [int]. *)
Definition str_of_int (z : Z) : string := NilZero.string_of_int (Z.to_int z).

(** [s[:-1]]: the string without its last character ([""] stays [""]).
    One [ascii] stands for one Python character. *)
Fixpoint drop_last (s : string) : string :=
  match s with
  | EmptyString => EmptyString
  | String c EmptyString => EmptyString
  | String c rest => String c (drop_last rest)
  end.

(** [l.pop()] on a non-empty list: the remaining list and the last element. *)
Fixpoint pop {A : Type} (l : list A) : option (list A * A) :=
  match l with
  | [] => None
  | [x] => Some ([], x)
  | x :: rest => '(rest', y) ← pop rest; Some (x :: rest', y)
  end.

(** A [dict] with [str] keys: its items in insertion order. *)
Definition dict (V : Type) : Type := list (string * V).

(** [key in d] together with [d[key]]. *)
Fixpoint dict_lookup {V : Type} (d : dict V) (key : string) : option V :=
  match d with
  | [] => None
  | (k, v) :: rest => if decide (k = key) then Some v else dict_lookup rest key
  end.

(** [d[key] = v]: an existing key keeps its place, a new one goes last. *)
Fixpoint dict_set {V : Type} (d : dict V) (key : string) (v : V) : dict V :=
  match d with
  | [] => [(key, v)]
  | (k, v0) :: rest =>
      if decide (k = key) then (k, v) :: rest else (k, v0) :: dict_set rest key v
  end.

(** ** The command classes *)

Inductive Command : Type :=
  | PrintCharCommand (char : string)
  | VolumeUpCommand (amount current_volume : Z)
  | VolumeDownCommand (amount current_volume : Z)
  | MediaPlayerCommand (is_playing : bool).

(** A method call on a command reads and writes the command's own fields and
    the class attribute [PrintCharCommand.text]; it returns a string. *)
Record effect : Type := Effect {
  result : string;
  self_after : Command;
  text_after : string
}.

Module Cmd.

Definition execute (self : Command) (text : string) : effect :=
  match self with
  | PrintCharCommand char =>
      let text := text +:+ char in
      Effect text self text
  | VolumeUpCommand amount current_volume =>
      let current_volume := (current_volume + amount)%Z in
      Effect ("volume increased +" +:+ str_of_int amount +:+ "% (now: "
              +:+ str_of_int current_volume +:+ "%)")
             (VolumeUpCommand amount current_volume) text
  | VolumeDownCommand amount current_volume =>
      let current_volume := (current_volume - amount)%Z in
      Effect ("volume decreased -" +:+ str_of_int amount +:+ "% (now: "
              +:+ str_of_int current_volume +:+ "%)")
             (VolumeDownCommand amount current_volume) text
  | MediaPlayerCommand _ =>
      Effect "media player launched" (MediaPlayerCommand true) text
  end.

Definition undo (self : Command) (text : string) : effect :=
  match self with
  | PrintCharCommand char =>
      let text := drop_last text in
      Effect text self text
  | VolumeUpCommand amount current_volume =>
      let current_volume := (current_volume - amount)%Z in
      Effect ("volume decreased +" +:+ str_of_int amount +:+ "% (now: "
              +:+ str_of_int current_volume +:+ "%)")
             (VolumeUpCommand amount current_volume) text
  | VolumeDownCommand amount current_volume =>
      let current_volume := (current_volume + amount)%Z in
      Effect ("volume increased -" +:+ str_of_int amount +:+ "% (now: "
              +:+ str_of_int current_volume +:+ "%)")
             (VolumeDownCommand amount current_volume) text
  | MediaPlayerCommand _ =>
      Effect "media player closed" (MediaPlayerCommand false) text
  end.

(** Every class defines [redo] as [return self.execute()]. *)
Definition redo (self : Command) (text : string) : effect :=
  match self with
  | PrintCharCommand char => execute (PrintCharCommand char) text
  | VolumeUpCommand amount current_volume =>
      execute (VolumeUpCommand amount current_volume) text
  | VolumeDownCommand amount current_volume =>
      execute (VolumeDownCommand amount current_volume) text
  | MediaPlayerCommand is_playing => execute (MediaPlayerCommand is_playing) text
  end.

End Cmd.

(** ** The keyboard *)

(** A reference to a command object: its index in the heap. *)
Abbreviation ref := nat (only parsing).

(** A history entry, [{"key": key, "command": command}]. *)
Record entry : Type := Entry { key : string; command : ref }.

(** The program state: the class attribute [PrintCharCommand.text], the
    command objects created so far, and the three attributes of the
    [VirtualKeyboard].  A binding is [None] for Python's [None]. *)
Record session : Type := Session {
  text : string;
  heap : list Command;
  key_bindings : dict (option ref);
  history : list entry;
  undo_stack : list entry
}.

(** Creating an object: it is stored last, its reference is its index. *)
Definition alloc (c : Command) (s : session) : ref * session :=
  (length (heap s),
   Session (text s) (heap s ++ [c]) (key_bindings s) (history s) (undo_stack s)).

(** [self.key_bindings.get(key)]: [None] for an absent key and for a key
    bound to [None] alike. *)
Definition get_binding (s : session) (key : string) : option ref :=
  match dict_lookup (key_bindings s) key with
  | Some command => command
  | None => None
  end.

Definition bind_key (key : string) (command : option ref) (s : session) : session :=
  Session (text s) (heap s) (dict_set (key_bindings s) key command)
          (history s) (undo_stack s).

(** Calling a method of the object behind [r] and storing what it did.
    [None] only if [r] points to no object, which no Python state does. *)
Definition call (method : Command → string → effect) (r : ref) (s : session)
  : option (string * session) :=
  self ← heap s !! r;
  let e := method self (text s) in
  Some (result e,
        Session (text_after e) (<[r := self_after e]> (heap s))
                (key_bindings s) (history s) (undo_stack s)).

Module VirtualKeyboard.

Definition undo (s : session) : option (string * session) :=
  match pop (history s) with
  | None => Some ("Nothing to undo", s)
  | Some (rest, top) =>
      let s := Session (text s) (heap s) (key_bindings s) rest (undo_stack s) in
      '(result, s) ← call Cmd.undo (command top) s;
      Some ("undo: " +:+ result,
            Session (text s) (heap s) (key_bindings s) (history s)
                    (undo_stack s ++ [top]))
  end.

Definition redo (s : session) : option (string * session) :=
  match pop (undo_stack s) with
  | None => Some ("Nothing to redo", s)
  | Some (rest, top) =>
      let s := Session (text s) (heap s) (key_bindings s) (history s) rest in
      '(result, s) ← call Cmd.redo (command top) s;
      Some ("redo: " +:+ result,
            Session (text s) (heap s) (key_bindings s)
                    (history s ++ [top]) (undo_stack s))
  end.

Definition press_key (key : string) (s : session) : option (string * session) :=
  if decide (key = "undo") then undo s
  else if decide (key = "redo") then redo s
  else
    let bound := get_binding s key in
    let '(bound, s) :=
      match bound with
      | None =>
          if decide (String.length key = 1) then
            let '(r, s) := alloc (PrintCharCommand key) s in
            let s := bind_key key (Some r) s in
            (get_binding s key, s)
          else (None, s)
      | Some r => (Some r, s)
      end in
    match bound with
    | Some r =>
        '(result, s) ← call Cmd.execute r s;
        Some (result,
              Session (text s) (heap s) (key_bindings s)
                      (history s ++ [Entry key r]) [])
    | None => Some ("Unknown key: " +:+ key, s)
    end.

(** [VirtualKeyboard()]: three empty attributes, then the default
    bindings.  The class attribute [text] is whatever it was. *)
Definition init_default_bindings (s : session) : session :=
  let bind_new key c s := let '(r, s) := alloc c s in bind_key key (Some r) s in
  let s := bind_new "a" (PrintCharCommand "a") s in
  let s := bind_new "b" (PrintCharCommand "b") s in
  let s := bind_new "c" (PrintCharCommand "c") s in
  let s := bind_new "d" (PrintCharCommand "d") s in
  let s := bind_new "ctrl++" (VolumeUpCommand 20 50) s in
  let s := bind_new "ctrl+-" (VolumeDownCommand 20 50) s in
  let s := bind_new "ctrl+p" (MediaPlayerCommand false) s in
  let s := bind_key "undo" None s in
  bind_key "redo" None s.

Definition init (text : string) (heap : list Command) : session :=
  init_default_bindings (Session text heap [] [] []).

End VirtualKeyboard.

(** ** The saved state *)

(** What [json.load] returns, and what [json.dump] accepts.  A [JObj] holds
    the items of a Python [dict] (its keys are distinct); numbers are the
    integers. *)
#[warnings="-register-all"]
Inductive json : Type :=
  | JNull
  | JBool (b : bool)
  | JInt (z : Z)
  | JStr (s : string)
  | JArr (elements : list json)
  | JObj (items : list (string * json)).

Module KeyboardMemento.

(** [command.__class__.__name__] *)
Definition class_name (c : Command) : string :=
  match c with
  | PrintCharCommand _ => "PrintCharCommand"
  | VolumeUpCommand _ _ => "VolumeUpCommand"
  | VolumeDownCommand _ _ => "VolumeDownCommand"
  | MediaPlayerCommand _ => "MediaPlayerCommand"
  end.

(** [command.__dict__.copy()]: the instance attributes, in the order
    [__init__] assigns them. *)
Definition state_of (c : Command) : list (string * json) :=
  match c with
  | PrintCharCommand char => [("char", JStr char)]
  | VolumeUpCommand amount current_volume
  | VolumeDownCommand amount current_volume =>
      [("amount", JInt amount); ("current_volume", JInt current_volume)]
  | MediaPlayerCommand is_playing => [("is_playing", JBool is_playing)]
  end.

(** What is saved for a bound command. *)
Definition command_data (c : Command) : json :=
  JObj [("class", JStr (class_name c)); ("state", JObj (state_of c))].

Definition binding_data (heap : list Command) (b : string * option ref)
  : option (string * json) :=
  match b with
  | (key, None) => Some (key, JNull)
  | (key, Some r) => c ← heap !! r; Some (key, command_data c)
  end.

(** The [state] of the memento.  [None] only for a binding that points to
    no object. *)
Definition from_keyboard (s : session) : option json :=
  key_bindings ← mapM (binding_data (heap s)) (key_bindings s);
  Some (JObj [("text", JStr (text s));
              ("key_bindings", JObj key_bindings);
              ("history", JArr ((λ e, JStr (key e)) <$> history s));
              ("undo_stack", JArr ((λ e, JStr (key e)) <$> undo_stack s))]).

End KeyboardMemento.

(** ** Loading *)

Inductive exn : Type :=
  | FileNotFoundError | JSONDecodeError | KeyError | AttributeError | TypeError.

(** The result of evaluating a Python expression: a value or a raised
    exception.  [IllTyped] marks the one thing the embedding cannot follow:
    [load_state] installing, unchecked, a value that is not of the type the
    attribute is declared with ([text] and [char] are [str], [amount] and
    [current_volume] are [int], [is_playing] is [bool]). *)
Inductive res (A : Type) : Type :=
  | Ok (a : A)
  | Raise (e : exn)
  | IllTyped.
Arguments Ok {A} a.
Arguments Raise {A} e.
Arguments IllTyped {A}.

#[global] Instance res_ret : MRet res := λ A a, Ok a.
#[global] Instance res_bind : MBind res := λ A B f m,
  match m with
  | Ok a => f a
  | Raise e => Raise e
  | IllTyped => IllTyped
  end.

(** [v[name]] for a string [name]. *)
Definition subscript (v : json) (name : string) : res json :=
  match v with
  | JObj items =>
      match dict_lookup items name with
      | Some x => Ok x
      | None => Raise KeyError
      end
  | _ => Raise TypeError
  end.

(** [v.get(name, default)] *)
Definition get (v : json) (name : string) (default : json) : res json :=
  match v with
  | JObj items =>
      match dict_lookup items name with
      | Some x => Ok x
      | None => Ok default
      end
  | _ => Raise AttributeError
  end.

(** [v.items()] *)
Definition items_of (v : json) : res (list (string * json)) :=
  match v with
  | JObj items => Ok items
  | _ => Raise AttributeError
  end.

(** [iter(v)]: the elements of a list, the characters of a string, the keys
    of a dict. *)
Definition iterate (v : json) : res (list json) :=
  match v with
  | JArr elements => Ok elements
  | JStr s => Ok (map (λ c, JStr (String c EmptyString)) (list_ascii_of_string s))
  | JObj items => Ok (map (λ kv, JStr kv.1) items)
  | _ => Raise TypeError
  end.

(** The classes in [Command.__subclasses__()], by [__name__]. *)
Inductive class : Type := CPrintChar | CVolumeUp | CVolumeDown | CMediaPlayer.

(** [class_names[tag]]: a list or a dict cannot be hashed, anything else
    that is not one of the four names is a missing key. *)
Definition class_names (tag : json) : res class :=
  match tag with
  | JStr name =>
      if decide (name = "PrintCharCommand") then Ok CPrintChar
      else if decide (name = "VolumeUpCommand") then Ok CVolumeUp
      else if decide (name = "VolumeDownCommand") then Ok CVolumeDown
      else if decide (name = "MediaPlayerCommand") then Ok CMediaPlayer
      else Raise KeyError
  | JArr _ | JObj _ => Raise TypeError
  | _ => Raise KeyError
  end.

(** The parameters of [__init__], besides [self]. *)
Definition parameters (cls : class) : list string :=
  match cls with
  | CPrintChar => ["char"]
  | CVolumeUp | CVolumeDown => ["amount"; "current_volume"]
  | CMediaPlayer => ["is_playing"]
  end.

Definition as_str (v : json) : res string :=
  match v with JStr s => Ok s | _ => IllTyped end.
Definition as_int (v : json) : res Z :=
  match v with JInt z => Ok z | _ => IllTyped end.
Definition as_bool (v : json) : res bool :=
  match v with JBool b => Ok b | _ => IllTyped end.

(** A keyword argument, or the parameter's default when it is not given. *)
Definition argument {A : Type} (kwargs : list (string * json)) (name : string)
    (as_type : json → res A) (default : res A) : res A :=
  match dict_lookup kwargs name with
  | Some v => as_type v
  | None => default
  end.

(** Calling [cls] with the keyword arguments [kwargs]: [kwargs] has to be a
    mapping, each of its keys a parameter, and [char] has no default. *)
Definition construct (cls : class) (kwargs : json) : res Command :=
  match kwargs with
  | JObj kwargs =>
      if forallb (λ kv, bool_decide (kv.1 ∈ parameters cls)) kwargs then
        match cls with
        | CPrintChar =>
            char ← argument kwargs "char" as_str (Raise TypeError);
            Ok (PrintCharCommand char)
        | CVolumeUp =>
            amount ← argument kwargs "amount" as_int (Ok 20%Z);
            current_volume ← argument kwargs "current_volume" as_int (Ok 50%Z);
            Ok (VolumeUpCommand amount current_volume)
        | CVolumeDown =>
            amount ← argument kwargs "amount" as_int (Ok 20%Z);
            current_volume ← argument kwargs "current_volume" as_int (Ok 50%Z);
            Ok (VolumeDownCommand amount current_volume)
        | CMediaPlayer =>
            is_playing ← argument kwargs "is_playing" as_bool (Ok false);
            Ok (MediaPlayerCommand is_playing)
        end
      else Raise TypeError
  | _ => Raise TypeError
  end.

(** The class found under [command_data['class']], called with the keyword
    arguments [command_data['state']]. *)
Definition build_command (command_data : json) : res Command :=
  tag ← subscript command_data "class";
  cls ← class_names tag;
  kwargs ← subscript command_data "state";
  construct cls kwargs.

(** The body of [load_state] runs in the session and may raise. *)
Definition M (A : Type) : Type := session → res A * session.

#[global] Instance M_ret : MRet M := λ A a s, (Ok a, s).
#[global] Instance M_bind : MBind M := λ A B f m s,
  match m s with
  | (Ok a, s) => f a s
  | (Raise e, s) => (Raise e, s)
  | (IllTyped, s) => (IllTyped, s)
  end.

Definition lift {A : Type} (r : res A) : M A := λ s, (r, s).
Definition update (f : session → session) : M unit := λ s, (Ok (), f s).
Definition new (c : Command) : M ref := λ s, let '(r, s) := alloc c s in (Ok r, s).

Definition set_text (t : string) (s : session) : session :=
  Session t (heap s) (key_bindings s) (history s) (undo_stack s).
Definition clear_key_bindings (s : session) : session :=
  Session (text s) (heap s) [] (history s) (undo_stack s).
Definition set_history (h : list entry) (s : session) : session :=
  Session (text s) (heap s) (key_bindings s) h (undo_stack s).
Definition set_undo_stack (u : list entry) (s : session) : session :=
  Session (text s) (heap s) (key_bindings s) (history s) u.

(** The loop over [key_bindings]: it stops at the first entry that raises,
    with the earlier entries bound. *)
Fixpoint load_bindings (items : list (string * json)) : M unit :=
  match items with
  | [] => mret ()
  | (key, command_data) :: rest =>
      match command_data with
      | JNull => update (bind_key key None)
      | _ =>
          c ← lift (build_command command_data);
          r ← new c;
          update (bind_key key (Some r))
      end;;
      load_bindings rest
  end.

(** [key in self.key_bindings.keys() and self.key_bindings[key] is not None],
    giving the command when it holds.  Hashing a list or a dict raises; a
    number, a boolean or [None] is no key of the table. *)
Definition bound_command (bindings : dict (option ref)) (token : json)
  : res (option entry) :=
  match token with
  | JStr key =>
      match dict_lookup bindings key with
      | Some (Some r) => Ok (Some (Entry key r))
      | _ => Ok None
      end
  | JArr _ | JObj _ => Raise TypeError
  | _ => Ok None
  end.

(** [[{"key": key, "command": self.key_bindings[key]} for key in tokens
      if key in self.key_bindings.keys() and self.key_bindings[key] is not None]] *)
Fixpoint comprehension (bindings : dict (option ref)) (tokens : list json)
  : res (list entry) :=
  match tokens with
  | [] => Ok []
  | token :: rest =>
      found ← bound_command bindings token;
      entries ← comprehension bindings rest;
      Ok (match found with Some e => e :: entries | None => entries end)
  end.

Definition rebuild (tokens : json) : M (list entry) := λ s,
  (tokens ← iterate tokens; comprehension (key_bindings s) tokens, s).

(** The body of the [try], once the file has been read and parsed. *)
Definition load_body (state : json) : M bool :=
  new_text ← lift (subscript state "text" ≫= as_str);
  update (set_text new_text);;
  update clear_key_bindings;;
  items ← lift (get state "key_bindings" (JObj []) ≫= items_of);
  load_bindings items;;
  tokens ← lift (get state "history" (JArr []));
  h ← rebuild tokens;
  update (set_history h);;
  tokens ← lift (get state "undo_stack" (JArr []));
  u ← rebuild tokens;
  update (set_undo_stack u);;
  mret true.

(** What [open] and [json.load] give. *)
Inductive file : Type :=
  | Missing
  | Malformed
  | Parsed (state : json).

(** How a call of [load_state] ends. *)
Inductive load_result : Type :=
  | Returned (b : bool)
  | Uncaught (e : exn)
  | Unmodelled.

(** [except (FileNotFoundError, json.JSONDecodeError, KeyError, AttributeError)] *)
Definition caught (e : exn) : bool :=
  match e with
  | FileNotFoundError | JSONDecodeError | KeyError | AttributeError => true
  | TypeError => false
  end.

Definition handle (r : res bool) : load_result :=
  match r with
  | Ok b => Returned b
  | Raise e => if caught e then Returned false else Uncaught e
  | IllTyped => Unmodelled
  end.

(** [load_state], given what reading the file produced.  It follows the
    source on every state whose values have the declared types (see
    [state_typed] below); on a state that stores a value of another type the
    source installs it unchecked and goes on, and the result here is
    [Unmodelled]. *)
Definition load_state (f : file) (s : session) : load_result * session :=
  let '(r, s) :=
    match f with
    | Missing => (Raise FileNotFoundError, s)
    | Malformed => (Raise JSONDecodeError, s)
    | Parsed state => load_body state s
    end in
  (handle r, s).

(** ** Sequences of operations *)

Inductive op : Type :=
  | Press (key : string)
  | Undo
  | Redo.

Definition step (o : op) (s : session) : option (string * session) :=
  match o with
  | Press key => VirtualKeyboard.press_key key s
  | Undo => VirtualKeyboard.undo s
  | Redo => VirtualKeyboard.redo s
  end.

(** The operations in order, with what each returned. *)
Fixpoint run (ops : list op) (s : session) : option (list string * session) :=
  match ops with
  | [] => Some ([], s)
  | o :: rest =>
      '(out, s) ← step o s;
      '(outs, s) ← run rest s;
      Some (out :: outs, s)
  end.

(** ** Well-formed sessions *)

(** A history entry is linked when its command is the object its key is
    bound to. *)
Definition linked (bindings : dict (option ref)) (e : entry) : Prop :=
  dict_lookup bindings (key e) = Some (Some (command e)).

(** The bindings are those of a dict, every bound reference points to an
    object, and every entry of the two stacks is linked. *)
Record wf (s : session) : Prop := Wf {
  wf_keys : NoDup (key_bindings s).*1;
  wf_bound : ∀ k r, dict_lookup (key_bindings s) k = Some (Some r) →
                    r < length (heap s);
  wf_history : Forall (linked (key_bindings s)) (history s);
  wf_undo_stack : Forall (linked (key_bindings s)) (undo_stack s)
}.

(** The five ways an operation moves the session. *)
Inductive transition (s : session) : string → session → Prop :=
  | t_refused out :
      transition s out s
  | t_execute k r c :
      get_binding s k = Some r → heap s !! r = Some c →
      let e := Cmd.execute c (text s) in
      transition s (result e)
        (Session (text_after e) (<[r := self_after e]> (heap s))
                 (key_bindings s) (history s ++ [Entry k r]) [])
  | t_autobind k :
      String.length k = 1 → get_binding s k = None →
      transition s (text s +:+ k)
        (Session (text s +:+ k) (heap s ++ [PrintCharCommand k])
                 (dict_set (key_bindings s) k (Some (length (heap s))))
                 (history s ++ [Entry k (length (heap s))]) [])
  | t_undo rest top c :
      history s = rest ++ [top] → heap s !! command top = Some c →
      let e := Cmd.undo c (text s) in
      transition s ("undo: " +:+ result e)
        (Session (text_after e) (<[command top := self_after e]> (heap s))
                 (key_bindings s) rest (undo_stack s ++ [top]))
  | t_redo rest top c :
      undo_stack s = rest ++ [top] → heap s !! command top = Some c →
      let e := Cmd.redo c (text s) in
      transition s ("redo: " +:+ result e)
        (Session (text_after e) (<[command top := self_after e]> (heap s))
                 (key_bindings s) (history s ++ [top]) rest).

(** ** The text the past stack accounts for *)

(** The character a call of [execute] appends: that of a [PrintCharCommand],
    nothing for the other classes. *)
Definition printed (c : Command) : string :=
  match c with
  | PrintCharCommand char => char
  | _ => ""
  end.

Definition printed_by (heap : list Command) (e : entry) : string :=
  match heap !! command e with
  | Some c => printed c
  | None => ""
  end.

(** The characters of the [PrintCharCommand] entries of a stack, oldest
    first. *)
Definition past_chars (heap : list Command) (stack : list entry) : string :=
  foldr (λ e rest, printed_by heap e +:+ rest) "" stack.

Definition one_char (c : Command) : Prop :=
  match c with
  | PrintCharCommand char => String.length char = 1
  | _ => True
  end.

Record consistent (s : session) : Prop := Consistent {
  c_wf : wf s;
  c_chars : Forall one_char (heap s);
  c_text : text s = past_chars (heap s) (history s)
}.

(** ** Snapshots *)

(** A state of the shape [from_keyboard] writes: a text, the bindings, and
    the keys of the two stacks. *)
Definition snapshot (t : string) (bindings : list (string * json))
    (history_keys undo_keys : list string) : json :=
  JObj [("text", JStr t);
        ("key_bindings", JObj bindings);
        ("history", JArr (JStr <$> history_keys));
        ("undo_stack", JArr (JStr <$> undo_keys))].

(** A binding of a snapshot that [load_state] can install: [null], or the
    data of a command. *)
Definition loadable (command_data : json) : Prop :=
  command_data = JNull ∨ ∃ c, build_command command_data = Ok c.

(** The key is in the snapshot's bindings and not bound to [null]. *)
Definition has_command (bindings : list (string * json)) (k : string) : bool :=
  match dict_lookup bindings k with
  | None | Some JNull => false
  | Some _ => true
  end.

(** The entry a key of a saved stack gives, if any. *)
Definition entry_for (bindings : dict (option ref)) (k : string) : option entry :=
  match dict_lookup bindings k with
  | Some (Some r) => Some (Entry k r)
  | _ => None
  end.

(** The names in [class_names]. *)
Definition known_classes : list string :=
  ["PrintCharCommand"; "VolumeUpCommand"; "VolumeDownCommand"; "MediaPlayerCommand"].

(** A binding whose kind tag names none of the classes. *)
Definition unknown_kind (command_data : json) : Prop :=
  ∃ fields name,
    command_data = JObj fields ∧
    dict_lookup fields "class" = Some (JStr name) ∧
    name ∉ known_classes.

(** A binding of a known class whose field map has a field that is no
    parameter of the constructor, or lacks the one parameter without a
    default. *)
Definition mismatched_fields (command_data : json) : Prop :=
  ∃ fields tag cls kwargs,
    command_data = JObj fields ∧
    dict_lookup fields "class" = Some tag ∧
    class_names tag = Ok cls ∧
    dict_lookup fields "state" = Some (JObj kwargs) ∧
    ((∃ name, name ∈ kwargs.*1 ∧ name ∉ parameters cls) ∨
     (cls = CPrintChar ∧ dict_lookup kwargs "char" = None)).

(** What the memento holds for a binding. *)
Definition saved_as (heap : list Command) (b : option ref) (data : json) : Prop :=
  match b with
  | None => data = JNull
  | Some r => ∃ c, heap !! r = Some c ∧ data = KeyboardMemento.command_data c
  end.

(** ** Example sessions and snapshots *)

(** The session after pressing [a] and undoing it. *)
Definition a_undone : session :=
  Session ""
          [PrintCharCommand "a"; PrintCharCommand "b"; PrintCharCommand "c";
           PrintCharCommand "d"; VolumeUpCommand 20 50; VolumeDownCommand 20 50;
           MediaPlayerCommand false]
          [("a", Some 0); ("b", Some 1); ("c", Some 2); ("d", Some 3);
           ("ctrl++", Some 4); ("ctrl+-", Some 5); ("ctrl+p", Some 6);
           ("undo", None); ("redo", None)]
          [] [Entry "a" 0].

(** The data of a command of a class the program does not have. *)
Definition laser_data : json :=
  JObj [("class", JStr "LaserCommand"); ("state", JObj [])].

(** A snapshot whose second binding is of that class. *)
Definition laser_snapshot : json :=
  snapshot "hi"
           ([("a", KeyboardMemento.command_data (PrintCharCommand "a"))] ++
            ("q", laser_data) ::
            [("b", KeyboardMemento.command_data (PrintCharCommand "b"))])
           ["a"; "b"] [].

(** A snapshot whose stacks list [ghost], which is no key of its bindings,
    and [undo], which is bound to [null]. *)
Definition ghost_bindings : list (string * json) :=
  [("a", KeyboardMemento.command_data (PrintCharCommand "a")); ("undo", JNull)].


(** ** Further invariants *)

(** No object is bound to two keys. *)
Definition injective (bindings : dict (option ref)) : Prop :=
  ∀ k1 k2 r,
    dict_lookup bindings k1 = Some (Some r) →
    dict_lookup bindings k2 = Some (Some r) → k1 = k2.

Record solid (s : session) : Prop := Solid {
  solid_wf : wf s;
  solid_inj : injective (key_bindings s)
}.

(** A bound single character is bound to the command that prints it. *)
Definition chars_print_themselves (s : session) : Prop :=
  ∀ k r, String.length k = 1 →
         dict_lookup (key_bindings s) k = Some (Some r) →
         heap s !! r = Some (PrintCharCommand k).

(** The command a key resolves to, by value. *)
Definition resolve (s : session) (k : string) : option Command :=
  r ← get_binding s k; heap s !! r.

(** Two sessions that cannot be told apart by [press_key], [undo] and
    [redo]: the same text, the same keys on the stacks, and every key bound
    to commands with the same fields. *)
Record alike (s s' : session) : Prop := Alike {
  alike_text : text s = text s';
  alike_resolve : ∀ k, resolve s k = resolve s' k;
  alike_history : key <$> history s = key <$> history s';
  alike_undo_stack : key <$> undo_stack s = key <$> undo_stack s'
}.

Definition is_media_player (c : Command) : Prop :=
  ∃ is_playing, c = MediaPlayerCommand is_playing.

(** [''.join(keys)] *)
Definition join (keys : list string) : string := foldr String.append "" keys.

(** What [n] executions add to the level of a volume command. *)
Definition volume_after (up : bool) (amount level : Z) (n : nat) : Command :=
  if up then VolumeUpCommand amount (level + Z.of_nat n * amount)
  else VolumeDownCommand amount (level - Z.of_nat n * amount).

(** The session after pressing [a] on a new keyboard. *)
Definition a_pressed : session :=
  Session "a" (heap a_undone) (key_bindings a_undone) [Entry "a" 0] [].

(** The three properties of a table that the loop over the bindings keeps. *)
Definition sound_table (s : session) : Prop :=
  NoDup (key_bindings s).*1 ∧
  (∀ k r, dict_lookup (key_bindings s) k = Some (Some r) → r < length (heap s)) ∧
  injective (key_bindings s).

(** ** States of the declared types *)

(** The embedding follows [load_state] on states whose values have the types
    the attributes are declared with; these are the states below.  On any
    other state [load_state] answers [Unmodelled], and nothing is claimed
    about what the program does with it. *)

(** A field named like an attribute holds a value of the attribute's type:
    [char] a string, [amount] and [current_volume] an integer, [is_playing]
    a boolean. *)
Definition has_declared_type (name : string) (v : json) : bool :=
  if decide (name = "char") then match v with JStr _ => true | _ => false end
  else if decide (name = "amount") then match v with JInt _ => true | _ => false end
  else if decide (name = "current_volume") then
    match v with JInt _ => true | _ => false end
  else if decide (name = "is_playing") then
    match v with JBool _ => true | _ => false end
  else true.

(** The fields under [state] of a binding have their declared types. *)
Definition binding_typed (command_data : json) : bool :=
  match command_data with
  | JObj fields =>
      match dict_lookup fields "state" with
      | Some (JObj kwargs) => forallb (λ kv, has_declared_type kv.1 kv.2) kwargs
      | _ => true
      end
  | _ => true
  end.

(** The text, if there is one, is a string, and every binding is typed. *)
Definition state_typed (state : json) : bool :=
  match state with
  | JObj fields =>
      match dict_lookup fields "text" with
      | Some (JStr _) | None => true
      | Some _ => false
      end &&
      match dict_lookup fields "key_bindings" with
      | Some (JObj items) => forallb (λ kv, binding_typed kv.2) items
      | _ => true
      end
  | _ => true
  end.

Definition file_typed (f : file) : bool :=
  match f with
  | Parsed state => state_typed state
  | Missing | Malformed => true
  end.

(** ** The script *)

(** The keys the script presses. *)
Definition main_keys : list string :=
  ["a"; "b"; "c"; "undo"; "undo"; "redo"; "ctrl++"; "ctrl+-"; "ctrl+p"; "d";
   "undo"; "undo"].

(** How the script ends: with an exception out of [load_state], or with the
    lines it logged and the state it saved. *)
Inductive run_result : Type :=
  | Crashed (e : exn)
  | Done (log : list string) (saved : json).

(** The [__main__] block on a new process, where the text is empty: a new
    keyboard, [load_state], the presses, each logged, and [save_state].
    It describes the script on the files [file_typed] accepts.  [None]
    stands for what the embedding does not follow: a file on which
    [load_state] is [Unmodelled], where the script goes on with a value of
    another type, or a session with a reference to no object. *)
Definition main (f : file) : option run_result :=
  let keyboard := VirtualKeyboard.init "" [] in
  let '(loaded, keyboard) := load_state f keyboard in
  match loaded with
  | Returned _ =>
      '(log, keyboard) ← run (Press <$> main_keys) keyboard;
      saved ← KeyboardMemento.from_keyboard keyboard;
      Some (Done (log ++ ["Keyboard state saved"]) saved)
  | Uncaught e => Some (Crashed e)
  | Unmodelled => None
  end.

(** * Properties *)

(** ** Lists, strings and dicts *)

Lemma pop_snoc {A : Type} (l : list A) (x : A) : pop (l ++ [x]) = Some (l, x).
Proof.
  induction l as [|y l IH]; [reflexivity|].
  simpl. rewrite IH. destruct l; reflexivity.
Qed.

Lemma pop_None {A : Type} (l : list A) : pop l = None → l = [].
Proof.
  destruct l as [|x l] using rev_ind; [reflexivity|].
  rewrite pop_snoc. discriminate.
Qed.

Lemma pop_Some {A : Type} (l l' : list A) (x : A) :
  pop l = Some (l', x) → l = l' ++ [x].
Proof.
  destruct l as [|y l _] using rev_ind; [discriminate|].
  rewrite pop_snoc. congruence.
Qed.

Lemma append_cons (x : ascii) (a b : string) :
  String x a +:+ b = String x (a +:+ b).
Proof. reflexivity. Qed.

Lemma append_assoc (a b c : string) : (a +:+ b) +:+ c = a +:+ (b +:+ c).
Proof.
  induction a as [|x a IH]; [reflexivity|].
  rewrite !append_cons. congruence.
Qed.

Lemma append_empty_r (a : string) : a +:+ "" = a.
Proof.
  induction a as [|x a IH]; [reflexivity|].
  rewrite append_cons. congruence.
Qed.

Lemma drop_last_snoc (t ch : string) :
  String.length ch = 1 → drop_last (t +:+ ch) = t.
Proof.
  destruct ch as [|c [|c' ch]]; try discriminate. intros _.
  induction t as [|x t IH]; [reflexivity|].
  rewrite append_cons. simpl. rewrite IH.
  destruct t; reflexivity.
Qed.

Lemma single_not_reserved (key : string) :
  String.length key = 1 → key ≠ "undo" ∧ key ≠ "redo".
Proof. intros H; split; intros ->; discriminate. Qed.

Lemma dict_lookup_set {V : Type} (d : dict V) (k k' : string) (v : V) :
  dict_lookup (dict_set d k v) k' =
  if decide (k = k') then Some v else dict_lookup d k'.
Proof.
  induction d as [|[k0 v0] d IH]; simpl.
  - destruct (decide (k = k')); reflexivity.
  - destruct (decide (k0 = k)) as [->|Hne]; simpl.
    + destruct (decide (k = k')); reflexivity.
    + rewrite IH. destruct (decide (k0 = k')) as [->|]; [|reflexivity].
      destruct (decide (k = k')); congruence.
Qed.

Lemma dict_lookup_set_eq {V : Type} (d : dict V) (k : string) (v : V) :
  dict_lookup (dict_set d k v) k = Some v.
Proof. rewrite dict_lookup_set. destruct (decide (k = k)); congruence. Qed.

Lemma dict_lookup_set_ne {V : Type} (d : dict V) (k k' : string) (v : V) :
  k ≠ k' → dict_lookup (dict_set d k v) k' = dict_lookup d k'.
Proof. intros. rewrite dict_lookup_set. destruct (decide (k = k')); congruence. Qed.

Lemma dict_lookup_None {V : Type} (d : dict V) (k : string) :
  dict_lookup d k = None ↔ k ∉ d.*1.
Proof.
  induction d as [|[k0 v0] d IH]; simpl.
  - split; [intros _; apply not_elem_of_nil | reflexivity].
  - rewrite not_elem_of_cons. destruct (decide (k0 = k)) as [->|Hne].
    + split; [discriminate | intros [? _]; done].
    + rewrite IH. split; [intros; split; [congruence | assumption] | intros [_ ?]; assumption].
Qed.

Lemma dict_set_keys {V : Type} (d : dict V) (k : string) (v : V) :
  (dict_set d k v).*1 = if decide (k ∈ d.*1) then d.*1 else d.*1 ++ [k].
Proof.
  induction d as [|[k0 v0] d IH]; simpl.
  - reflexivity.
  - destruct (decide (k0 = k)) as [->|Hne]; simpl.
    + clear IH. case_decide as H; [reflexivity|]. exfalso; apply H; left.
    + revert IH. repeat case_decide; intros IH.
      * f_equal. exact IH.
      * exfalso. eauto using list_elem_of_further.
      * exfalso. match goal with H : k ∈ k0 :: _ |- _ =>
          apply elem_of_cons in H as [->|] end; [congruence | contradiction].
      * f_equal. exact IH.
Qed.

Lemma dict_set_NoDup {V : Type} (d : dict V) (k : string) (v : V) :
  NoDup d.*1 → NoDup (dict_set d k v).*1.
Proof.
  intros Hd. rewrite dict_set_keys. destruct (decide (k ∈ d.*1)); [assumption|].
  apply NoDup_app. split; [assumption|]. split; [|apply NoDup_singleton].
  intros x Hx Hk. apply list_elem_of_singleton in Hk. congruence.
Qed.

(** ** What one operation does *)

Lemma get_binding_bind_key (s : session) (k k' : string) (b : option ref) :
  get_binding (bind_key k b s) k' = if decide (k = k') then b else get_binding s k'.
Proof.
  unfold get_binding, bind_key; simpl. rewrite dict_lookup_set.
  destruct (decide (k = k')); reflexivity.
Qed.

Lemma press_key_bound (s : session) (key : string) (r : ref) (c : Command) :
  key ≠ "undo" → key ≠ "redo" →
  get_binding s key = Some r → heap s !! r = Some c →
  VirtualKeyboard.press_key key s =
  Some (result (Cmd.execute c (text s)),
        Session (text_after (Cmd.execute c (text s)))
                (<[r := self_after (Cmd.execute c (text s))]> (heap s))
                (key_bindings s) (history s ++ [Entry key r]) []).
Proof.
  intros Hu Hr Hb Hc. unfold VirtualKeyboard.press_key.
  rewrite !decide_False by assumption.
  rewrite Hb. unfold call. rewrite Hc. reflexivity.
Qed.

Lemma press_key_autobind (s : session) (key : string) :
  String.length key = 1 → get_binding s key = None →
  VirtualKeyboard.press_key key s =
  Some (text s +:+ key,
        Session (text s +:+ key) (heap s ++ [PrintCharCommand key])
                (dict_set (key_bindings s) key (Some (length (heap s))))
                (history s ++ [Entry key (length (heap s))]) []).
Proof.
  intros Hlen Hb. destruct (single_not_reserved key Hlen) as [Hu Hr].
  unfold VirtualKeyboard.press_key.
  rewrite !decide_False by assumption.
  rewrite Hb, decide_True by assumption.
  unfold alloc. rewrite get_binding_bind_key, decide_True by reflexivity.
  unfold call; simpl.
  rewrite lookup_app_r, Nat.sub_diag by reflexivity. simpl.
  rewrite list_insert_id; [reflexivity|].
  rewrite lookup_app_r, Nat.sub_diag by reflexivity. reflexivity.
Qed.

Lemma press_key_unknown (s : session) (key : string) :
  key ≠ "undo" → key ≠ "redo" →
  String.length key ≠ 1 → get_binding s key = None →
  VirtualKeyboard.press_key key s = Some ("Unknown key: " +:+ key, s).
Proof.
  intros Hu Hr Hlen Hb. unfold VirtualKeyboard.press_key.
  rewrite !decide_False by assumption.
  rewrite Hb. reflexivity.
Qed.

Lemma undo_empty (s : session) :
  history s = [] → VirtualKeyboard.undo s = Some ("Nothing to undo", s).
Proof. intros H. unfold VirtualKeyboard.undo. rewrite H. reflexivity. Qed.

Lemma redo_empty (s : session) :
  undo_stack s = [] → VirtualKeyboard.redo s = Some ("Nothing to redo", s).
Proof. intros H. unfold VirtualKeyboard.redo. rewrite H. reflexivity. Qed.

Lemma undo_top (s : session) (rest : list entry) (top : entry) (c : Command) :
  history s = rest ++ [top] → heap s !! command top = Some c →
  VirtualKeyboard.undo s =
  Some ("undo: " +:+ result (Cmd.undo c (text s)),
        Session (text_after (Cmd.undo c (text s)))
                (<[command top := self_after (Cmd.undo c (text s))]> (heap s))
                (key_bindings s) rest (undo_stack s ++ [top])).
Proof.
  intros Hh Hc. unfold VirtualKeyboard.undo.
  rewrite Hh, pop_snoc. unfold call; simpl. rewrite Hc. reflexivity.
Qed.

Lemma redo_top (s : session) (rest : list entry) (top : entry) (c : Command) :
  undo_stack s = rest ++ [top] → heap s !! command top = Some c →
  VirtualKeyboard.redo s =
  Some ("redo: " +:+ result (Cmd.redo c (text s)),
        Session (text_after (Cmd.redo c (text s)))
                (<[command top := self_after (Cmd.redo c (text s))]> (heap s))
                (key_bindings s) (history s ++ [top]) rest).
Proof.
  intros Hu Hc. unfold VirtualKeyboard.redo.
  rewrite Hu, pop_snoc. unfold call; simpl. rewrite Hc. reflexivity.
Qed.

Lemma press_key_undo (s : session) :
  VirtualKeyboard.press_key "undo" s = VirtualKeyboard.undo s.
Proof. reflexivity. Qed.

Lemma press_key_redo (s : session) :
  VirtualKeyboard.press_key "redo" s = VirtualKeyboard.redo s.
Proof. reflexivity. Qed.

(** ** Well-formedness is kept *)

Lemma get_binding_Some (s : session) (k : string) (r : ref) :
  get_binding s k = Some r ↔ dict_lookup (key_bindings s) k = Some (Some r).
Proof.
  unfold get_binding. destruct (dict_lookup (key_bindings s) k) as [[r'|]|];
    split; congruence.
Qed.

Lemma wf_deref (s : session) (k : string) (r : ref) :
  wf s → get_binding s k = Some r → ∃ c, heap s !! r = Some c.
Proof.
  intros Hwf Hb. apply get_binding_Some in Hb.
  apply lookup_lt_is_Some. eapply wf_bound; eassumption.
Qed.

Lemma undo_transition (s : session) :
  wf s → ∃ out s', VirtualKeyboard.undo s = Some (out, s') ∧ transition s out s'.
Proof.
  intros Hwf. destruct (history s) as [|top rest _] eqn:Hh using rev_ind.
  - eexists _, _. split; [apply undo_empty; assumption | constructor].
  - assert (linked (key_bindings s) top) as Hl.
    { pose proof (wf_history s Hwf) as H. rewrite Hh in H.
      apply Forall_app in H as [_ H]. exact (Forall_inv H). }
    destruct (wf_deref s (key top) (command top) Hwf) as [c Hc].
    { by apply get_binding_Some. }
    eexists _, _. split; [eapply undo_top; eassumption|].
    eapply t_undo; eassumption.
Qed.

Lemma redo_transition (s : session) :
  wf s → ∃ out s', VirtualKeyboard.redo s = Some (out, s') ∧ transition s out s'.
Proof.
  intros Hwf. destruct (undo_stack s) as [|top rest _] eqn:Hu using rev_ind.
  - eexists _, _. split; [apply redo_empty; assumption | constructor].
  - assert (linked (key_bindings s) top) as Hl.
    { pose proof (wf_undo_stack s Hwf) as H. rewrite Hu in H.
      apply Forall_app in H as [_ H]. exact (Forall_inv H). }
    destruct (wf_deref s (key top) (command top) Hwf) as [c Hc].
    { by apply get_binding_Some. }
    eexists _, _. split; [eapply redo_top; eassumption|].
    eapply t_redo; eassumption.
Qed.

Lemma press_key_transition (s : session) (k : string) :
  wf s →
  ∃ out s', VirtualKeyboard.press_key k s = Some (out, s') ∧ transition s out s'.
Proof.
  intros Hwf.
  destruct (decide (k = "undo")) as [->|Hu]; [by apply undo_transition|].
  destruct (decide (k = "redo")) as [->|Hr]; [by apply redo_transition|].
  destruct (get_binding s k) as [r|] eqn:Hb.
  - destruct (wf_deref s k r Hwf Hb) as [c Hc].
    eexists _, _. split; [eapply press_key_bound; eassumption|].
    eapply t_execute; eassumption.
  - destruct (decide (String.length k = 1)) as [Hlen|Hlen].
    + eexists _, _. split; [by apply press_key_autobind|]. by constructor.
    + eexists _, _. split; [by apply press_key_unknown|]. constructor.
Qed.

Lemma step_transition (s : session) (o : op) :
  wf s → ∃ out s', step o s = Some (out, s') ∧ transition s out s'.
Proof.
  destruct o; simpl;
    auto using press_key_transition, undo_transition, redo_transition.
Qed.

Lemma linked_set (bindings : dict (option ref)) (k : string) (r : ref) (e : entry) :
  dict_lookup bindings k = None ∨ dict_lookup bindings k = Some None →
  linked bindings e → linked (dict_set bindings k (Some r)) e.
Proof.
  unfold linked. intros Hk He. rewrite dict_lookup_set_ne; [assumption|].
  intros ->. destruct Hk; congruence.
Qed.

Lemma get_binding_None (s : session) (k : string) :
  get_binding s k = None →
  dict_lookup (key_bindings s) k = None ∨ dict_lookup (key_bindings s) k = Some None.
Proof.
  unfold get_binding. destruct (dict_lookup (key_bindings s) k) as [[r|]|]; auto.
  discriminate.
Qed.

Lemma transition_wf (s s' : session) (out : string) :
  wf s → transition s out s' → wf s'.
Proof.
  intros [Hk Hb Hh Hu] Ht.
  destruct Ht as [out|k r c Hbk Hc e|k Hlen Hbk|rest top c Hh' Hc e|rest top c Hu' Hc e];
    simpl in *.
  - by constructor.
  - constructor; simpl; try assumption.
    + intros k0 r0 H0. rewrite length_insert. eauto.
    + apply Forall_app. split; [assumption|]. apply Forall_singleton.
      by apply get_binding_Some.
    + constructor.
  - apply get_binding_None in Hbk.
    constructor; simpl.
    + by apply dict_set_NoDup.
    + intros k0 r0. rewrite dict_lookup_set, length_app. simpl.
      destruct (decide (k = k0)); [intros [= <-]; lia|].
      intros H0. apply Hb in H0. lia.
    + apply Forall_app. split.
      * eapply Forall_impl; [exact Hh|]. intros e0. by apply linked_set.
      * apply Forall_singleton. unfold linked; simpl. apply dict_lookup_set_eq.
    + constructor.
  - rewrite Hh' in Hh. apply Forall_app in Hh as [Hrest Htop].
    constructor; simpl; try assumption.
    + intros k0 r0 H0. rewrite length_insert. eauto.
    + apply Forall_app. by split.
  - rewrite Hu' in Hu. apply Forall_app in Hu as [Hrest Htop].
    constructor; simpl; try assumption.
    + intros k0 r0 H0. rewrite length_insert. eauto.
    + apply Forall_app. by split.
Qed.

Lemma init_wf (t : string) : wf (VirtualKeyboard.init t []).
Proof.
  constructor; simpl.
  - compute_done.
  - intros k r H.
    repeat case_decide; simplify_eq; lia.
  - constructor.
  - constructor.
Qed.

Lemma run_wf (ops : list op) (s : session) :
  wf s → ∃ outs s', run ops s = Some (outs, s') ∧ wf s'.
Proof.
  revert s. induction ops as [|o ops IH]; intros s Hwf; simpl.
  - eauto.
  - destruct (step_transition s o Hwf) as (out & s1 & -> & Ht). simpl.
    destruct (IH s1) as (outs & s2 & -> & Hwf2); [eapply transition_wf; eassumption|].
    simpl. eauto.
Qed.

(** ** The text buffer and the past stack *)

Lemma past_chars_snoc (heap : list Command) (stack : list entry) (e : entry) :
  past_chars heap (stack ++ [e]) = past_chars heap stack +:+ printed_by heap e.
Proof.
  induction stack as [|e0 stack IH]; simpl.
  - apply append_empty_r.
  - rewrite IH. symmetry. apply append_assoc.
Qed.

Lemma past_chars_ext (heap heap' : list Command) (stack : list entry) :
  Forall (λ e, printed_by heap' e = printed_by heap e) stack →
  past_chars heap' stack = past_chars heap stack.
Proof. induction 1 as [|e stack He _ IH]; simpl; congruence. Qed.

Lemma printed_by_insert (heap : list Command) (r : ref) (c c' : Command) (e : entry) :
  heap !! r = Some c → printed c' = printed c →
  printed_by (<[r := c']> heap) e = printed_by heap e.
Proof.
  intros Hc Hp. unfold printed_by.
  destruct (decide (r = command e)) as [<-|Hne].
  - rewrite list_lookup_insert_eq by (eapply lookup_lt_Some; eassumption).
    rewrite Hc. assumption.
  - rewrite list_lookup_insert_ne by assumption. reflexivity.
Qed.

Lemma past_chars_insert (heap : list Command) (r : ref) (c c' : Command)
    (stack : list entry) :
  heap !! r = Some c → printed c' = printed c →
  past_chars (<[r := c']> heap) stack = past_chars heap stack.
Proof.
  intros Hc Hp. apply past_chars_ext, Forall_forall. intros e _.
  eapply printed_by_insert; eassumption.
Qed.

Lemma linked_lt (s : session) (e : entry) :
  wf s → linked (key_bindings s) e → command e < length (heap s).
Proof. intros Hwf He. eapply wf_bound; eassumption. Qed.

Lemma past_chars_alloc (s : session) (c : Command) (stack : list entry) :
  wf s → Forall (linked (key_bindings s)) stack →
  past_chars (heap s ++ [c]) stack = past_chars (heap s) stack.
Proof.
  intros Hwf Hs. apply past_chars_ext. eapply Forall_impl; [exact Hs|].
  intros e He. unfold printed_by.
  rewrite lookup_app_l by (by apply linked_lt). reflexivity.
Qed.

Lemma execute_printed (c : Command) (t : string) :
  text_after (Cmd.execute c t) = t +:+ printed c ∧
  printed (self_after (Cmd.execute c t)) = printed c ∧
  (one_char c → one_char (self_after (Cmd.execute c t))).
Proof. destruct c; simpl; rewrite ?append_empty_r; auto. Qed.

Lemma undo_printed (c : Command) (t : string) :
  one_char c →
  text_after (Cmd.undo c (t +:+ printed c)) = t ∧
  printed (self_after (Cmd.undo c (t +:+ printed c))) = printed c ∧
  one_char (self_after (Cmd.undo c (t +:+ printed c))).
Proof.
  destruct c; simpl; rewrite ?append_empty_r; auto.
  intros H. rewrite drop_last_snoc by assumption. auto.
Qed.

Lemma redo_execute (c : Command) (t : string) : Cmd.redo c t = Cmd.execute c t.
Proof. destruct c; reflexivity. Qed.

Lemma Forall_insert_one_char (heap : list Command) (r : ref) (c : Command) :
  Forall one_char heap → one_char c → Forall one_char (<[r := c]> heap).
Proof. intros. by apply Forall_insert. Qed.

Lemma transition_consistent (s s' : session) (out : string) :
  consistent s → transition s out s' → consistent s'.
Proof.
  intros [Hwf Hch Htx] Ht.
  constructor; [eapply transition_wf; eassumption| |].
  - destruct Ht as [out|k r c Hbk Hc e|k Hlen Hbk|rest top c Hh Hc e|rest top c Hu Hc e];
      simpl; try assumption.
    + apply Forall_insert_one_char; [assumption|].
      apply execute_printed. eapply Forall_lookup_1; eassumption.
    + apply Forall_app. split; [assumption|]. by apply Forall_singleton.
    + apply Forall_insert_one_char; [assumption|].
      assert (one_char c) as H1 by (eapply Forall_lookup_1; eassumption).
      subst e. rewrite Htx, Hh, past_chars_snoc.
      unfold printed_by. rewrite Hc. by apply undo_printed.
    + apply Forall_insert_one_char; [assumption|].
      subst e. rewrite redo_execute.
      apply execute_printed. eapply Forall_lookup_1; eassumption.
  - destruct Ht as [out|k r c Hbk Hc e|k Hlen Hbk|rest top c Hh Hc e|rest top c Hu Hc e];
      simpl; try assumption.
    + destruct (execute_printed c (text s)) as (Ht & Hp & _).
      rewrite past_chars_snoc. fold e in Ht, Hp.
      rewrite (past_chars_insert _ r c) by assumption.
      unfold printed_by; simpl.
      rewrite list_lookup_insert_eq by (eapply lookup_lt_Some; eassumption).
      rewrite Ht, Hp, Htx. reflexivity.
    + rewrite past_chars_snoc.
      rewrite past_chars_alloc by (assumption || apply Hwf).
      unfold printed_by; simpl.
      rewrite lookup_app_r, Nat.sub_diag by reflexivity. simpl.
      rewrite Htx. reflexivity.
    + assert (one_char c) as H1 by (eapply Forall_lookup_1; eassumption).
      subst e. rewrite Htx, Hh, past_chars_snoc.
      unfold printed_by. rewrite Hc.
      destruct (undo_printed c (past_chars (heap s) rest) H1) as (Ht & Hp & _).
      rewrite Ht. symmetry. eapply past_chars_insert; eassumption.
    + subst e. rewrite redo_execute.
      destruct (execute_printed c (text s)) as (Ht & Hp & _).
      rewrite past_chars_snoc.
      rewrite (past_chars_insert _ (command top) c) by assumption.
      unfold printed_by; simpl.
      rewrite list_lookup_insert_eq by (eapply lookup_lt_Some; eassumption).
      rewrite Ht, Hp, Htx. reflexivity.
Qed.

Lemma init_consistent : consistent (VirtualKeyboard.init "" []).
Proof.
  constructor; [apply init_wf| |reflexivity].
  simpl. repeat constructor.
Qed.

Lemma run_consistent (ops : list op) (s : session) :
  consistent s → ∃ outs s', run ops s = Some (outs, s') ∧ consistent s'.
Proof.
  revert s. induction ops as [|o ops IH]; intros s Hs; simpl.
  - eauto.
  - destruct (step_transition s o (c_wf s Hs)) as (out & s1 & -> & Ht). simpl.
    destruct (IH s1) as (outs & s2 & -> & Hs2);
      [eapply transition_consistent; eassumption|].
    simpl. eauto.
Qed.

(** * The claims *)

(** C6: for each of the four command classes, in every state of the command
    and of the text buffer, [redo] has exactly the effect of [execute]: the
    same returned string, the same fields afterwards, the same text buffer.
    Called through a reference it changes the session the same way. *)
Theorem redo_is_execute (self : Command) (buffer : string) (r : ref) (s : session) :
  Cmd.redo self buffer = Cmd.execute self buffer ∧
  call Cmd.redo r s = call Cmd.execute r s.
Proof.
  split; [apply redo_execute|].
  unfold call. destruct (heap s !! r) as [c|]; simpl; [|reflexivity].
  rewrite redo_execute. reflexivity.
Qed.

(** C2: after any sequence of [press_key], [undo] and [redo] calls on a fresh
    keyboard with an empty text, the text is the concatenation, oldest first,
    of the characters of the [PrintCharCommand] entries that are on the
    history stack. *)
Theorem text_is_past_chars (ops : list op) :
  ∃ outs s,
    run ops (VirtualKeyboard.init "" []) = Some (outs, s) ∧
    text s = past_chars (heap s) (history s).
Proof.
  destruct (run_consistent ops _ init_consistent) as (outs & s & Hrun & Hs).
  exists outs, s. split; [assumption | apply Hs].
Qed.

Lemma a_undone_reached :
  run [Press "a"; Undo] (VirtualKeyboard.init "" []) =
  Some (["a"; "undo: "], a_undone).
Proof. reflexivity. Qed.

Lemma a_undone_wf : wf a_undone.
Proof.
  destruct (run_wf [Press "a"; Undo] _ (init_wf "")) as (outs & s & Hrun & Hwf).
  rewrite a_undone_reached in Hrun. by simplify_eq.
Qed.

(** C3, as stated, fails: with [a] pressed and undone, pressing the unbound
    token [xy] returns and leaves the undone entry on the undo stack. *)
Lemma unresolved_press_keeps_undo_stack :
  run [Press "a"; Undo] (VirtualKeyboard.init "" []) = Some (["a"; "undo: "], a_undone) ∧
  VirtualKeyboard.press_key "xy" a_undone = Some ("Unknown key: xy", a_undone) ∧
  undo_stack a_undone = [Entry "a" 0] ∧
  undo_stack a_undone ≠ [].
Proof. repeat split; discriminate. Qed.

(** C3, amended: a call of [press_key] with a token other than [undo] and
    [redo] returns; when the token resolves to a command (it is bound to
    one, or it is a single character) the undo stack is empty afterwards,
    and when it does not the session, undo stack included, is unchanged. *)
Theorem resolved_press_clears_undo_stack (s : session) (k : string) :
  wf s → k ≠ "undo" → k ≠ "redo" →
  ∃ out s',
    VirtualKeyboard.press_key k s = Some (out, s') ∧
    (get_binding s k ≠ None ∨ String.length k = 1 → undo_stack s' = []) ∧
    (get_binding s k = None → String.length k ≠ 1 → s' = s).
Proof.
  intros Hwf Hu Hr. destruct (get_binding s k) as [r|] eqn:Hb.
  - destruct (wf_deref s k r Hwf Hb) as [c Hc].
    eexists _, _. split; [eapply press_key_bound; eassumption|].
    split; [reflexivity | discriminate].
  - destruct (decide (String.length k = 1)) as [Hlen|Hlen].
    + eexists _, _. split; [by apply press_key_autobind|].
      split; [reflexivity | contradiction].
    + eexists _, _. split; [by apply press_key_unknown|].
      split; [intros [?|?]; contradiction | reflexivity].
Qed.

Lemma resolved_press_clears_undo_stack_witness :
  wf a_undone ∧ "b" ≠ "undo" ∧ "b" ≠ "redo" ∧
  ∃ out s',
    VirtualKeyboard.press_key "b" a_undone = Some (out, s') ∧
    (get_binding a_undone "b" ≠ None ∨ String.length "b" = 1 → undo_stack s' = []) ∧
    (get_binding a_undone "b" = None → String.length "b" ≠ 1 → s' = a_undone).
Proof.
  split; [apply a_undone_wf|]. split; [discriminate|]. split; [discriminate|].
  apply (resolved_press_clears_undo_stack a_undone "b");
    [apply a_undone_wf | discriminate | discriminate].
Defined.

(** C7: pressing a single character [x] that is no key of the table creates
    a [PrintCharCommand] for [x], binds [x] to it and executes that object;
    a second press finds the same object bound, executes it again, and
    creates nothing: the heap and the table are as the first press left
    them, and both history entries hold the same reference. *)
Theorem autobind_once_then_shared (s : session) (x : string) :
  String.length x = 1 → dict_lookup (key_bindings s) x = None →
  let r := length (heap s) in
  let s1 := Session (text s +:+ x) (heap s ++ [PrintCharCommand x])
                    (dict_set (key_bindings s) x (Some r))
                    (history s ++ [Entry x r]) [] in
  VirtualKeyboard.press_key x s = Some (text s +:+ x, s1) ∧
  dict_lookup (key_bindings s1) x = Some (Some r) ∧
  heap s1 !! r = Some (PrintCharCommand x) ∧
  VirtualKeyboard.press_key x s1 =
    Some ((text s +:+ x) +:+ x,
          Session ((text s +:+ x) +:+ x) (heap s1) (key_bindings s1)
                  (history s1 ++ [Entry x r]) []).
Proof.
  intros Hlen Hx r s1.
  assert (heap s1 !! r = Some (PrintCharCommand x)) as Hr.
  { simpl. unfold r. rewrite lookup_app_r, Nat.sub_diag by reflexivity. reflexivity. }
  assert (dict_lookup (key_bindings s1) x = Some (Some r)) as Hb.
  { simpl. apply dict_lookup_set_eq. }
  destruct (single_not_reserved x Hlen) as [Hu Hd].
  split; [|split; [assumption|split; [assumption|]]].
  - apply press_key_autobind; [assumption|].
    unfold get_binding. rewrite Hx. reflexivity.
  - rewrite (press_key_bound s1 x r (PrintCharCommand x)); try assumption.
    + simpl. rewrite list_insert_id by exact Hr. reflexivity.
    + by apply get_binding_Some.
Qed.

Lemma autobind_once_then_shared_witness :
  String.length "z" = 1 ∧
  dict_lookup (key_bindings (VirtualKeyboard.init "" [])) "z" = None ∧
  let s := VirtualKeyboard.init "" [] in
  let r := length (heap s) in
  let s1 := Session (text s +:+ "z") (heap s ++ [PrintCharCommand "z"])
                    (dict_set (key_bindings s) "z" (Some r))
                    (history s ++ [Entry "z" r]) [] in
  VirtualKeyboard.press_key "z" s = Some (text s +:+ "z", s1) ∧
  dict_lookup (key_bindings s1) "z" = Some (Some r) ∧
  heap s1 !! r = Some (PrintCharCommand "z") ∧
  VirtualKeyboard.press_key "z" s1 =
    Some ((text s +:+ "z") +:+ "z",
          Session ((text s +:+ "z") +:+ "z") (heap s1) (key_bindings s1)
                  (history s1 ++ [Entry "z" r]) []).
Proof.
  split; [reflexivity|]. split; [reflexivity|].
  apply (autobind_once_then_shared (VirtualKeyboard.init "" []) "z"); reflexivity.
Defined.

(** C8: pressing a token of several characters that has no binding, pressing
    [undo] with an empty history, and pressing [redo] with an empty undo
    stack each return a string and leave the text, the objects, the
    bindings and both stacks as they were. *)
Theorem refused_presses_change_nothing (s : session) (k : string) :
  (k ≠ "undo" → k ≠ "redo" → String.length k ≠ 1 → get_binding s k = None →
   VirtualKeyboard.press_key k s = Some ("Unknown key: " +:+ k, s)) ∧
  (history s = [] →
   VirtualKeyboard.press_key "undo" s = Some ("Nothing to undo", s)) ∧
  (undo_stack s = [] →
   VirtualKeyboard.press_key "redo" s = Some ("Nothing to redo", s)).
Proof.
  split; [apply press_key_unknown|].
  split; [apply undo_empty | apply redo_empty].
Qed.

Lemma refused_presses_change_nothing_witness :
  let s := VirtualKeyboard.init "abc" [] in
  ("ctrl+q" ≠ "undo" ∧ "ctrl+q" ≠ "redo" ∧ String.length "ctrl+q" ≠ 1 ∧
   get_binding s "ctrl+q" = None ∧ history s = [] ∧ undo_stack s = []) ∧
  VirtualKeyboard.press_key "ctrl+q" s = Some ("Unknown key: ctrl+q", s) ∧
  VirtualKeyboard.press_key "undo" s = Some ("Nothing to undo", s) ∧
  VirtualKeyboard.press_key "redo" s = Some ("Nothing to redo", s).
Proof.
  intros s.
  split; [repeat split; discriminate|].
  pose proof (refused_presses_change_nothing s "ctrl+q") as (Hk & Hu & Hr).
  split; [apply Hk; [discriminate..|reflexivity]|].
  split; [apply Hu; reflexivity | apply Hr; reflexivity].
Defined.

(** C10: pressing a single character that is a key of the table bound to
    [None] does what pressing an absent one does: a [PrintCharCommand] for
    it is created, bound in place of [None], and executed.  A session that
    differs only in lacking the key returns the same string and ends with
    the same text, objects, stacks and binding for the key. *)
Theorem explicit_none_is_autobound (s s0 : session) (k : string) :
  String.length k = 1 →
  dict_lookup (key_bindings s) k = Some None →
  dict_lookup (key_bindings s0) k = None →
  text s0 = text s → heap s0 = heap s → history s0 = history s →
  ∃ s' s0',
    VirtualKeyboard.press_key k s = Some (text s +:+ k, s') ∧
    VirtualKeyboard.press_key k s0 = Some (text s +:+ k, s0') ∧
    text s' = text s +:+ k ∧
    heap s' = heap s ++ [PrintCharCommand k] ∧
    key_bindings s' = dict_set (key_bindings s) k (Some (length (heap s))) ∧
    dict_lookup (key_bindings s') k = Some (Some (length (heap s))) ∧
    history s' = history s ++ [Entry k (length (heap s))] ∧
    undo_stack s' = [] ∧
    text s0' = text s' ∧ heap s0' = heap s' ∧
    history s0' = history s' ∧ undo_stack s0' = undo_stack s' ∧
    dict_lookup (key_bindings s0') k = dict_lookup (key_bindings s') k.
Proof.
  intros Hlen Hs Hs0 Ht Hh Hhi.
  eexists _, _.
  split; [apply press_key_autobind; [assumption|]; unfold get_binding; by rewrite Hs|].
  split.
  { rewrite <- Ht. apply press_key_autobind; [assumption|].
    unfold get_binding; by rewrite Hs0. }
  simpl. rewrite !dict_lookup_set_eq, Ht, Hh, Hhi. repeat split; reflexivity.
Qed.

Lemma explicit_none_is_autobound_witness :
  let s := Session "ab" [] [("x", None)] [] [] in
  let s0 := Session "ab" [] [] [] [] in
  (String.length "x" = 1 ∧
   dict_lookup (key_bindings s) "x" = Some None ∧
   dict_lookup (key_bindings s0) "x" = None ∧
   text s0 = text s ∧ heap s0 = heap s ∧ history s0 = history s) ∧
  ∃ s' s0',
    VirtualKeyboard.press_key "x" s = Some (text s +:+ "x", s') ∧
    VirtualKeyboard.press_key "x" s0 = Some (text s +:+ "x", s0') ∧
    text s' = text s +:+ "x" ∧
    heap s' = heap s ++ [PrintCharCommand "x"] ∧
    key_bindings s' = dict_set (key_bindings s) "x" (Some (length (heap s))) ∧
    dict_lookup (key_bindings s') "x" = Some (Some (length (heap s))) ∧
    history s' = history s ++ [Entry "x" (length (heap s))] ∧
    undo_stack s' = [] ∧
    text s0' = text s' ∧ heap s0' = heap s' ∧
    history s0' = history s' ∧ undo_stack s0' = undo_stack s' ∧
    dict_lookup (key_bindings s0') "x" = dict_lookup (key_bindings s') "x".
Proof.
  intros s s0. split; [repeat split|].
  apply (explicit_none_is_autobound s s0 "x"); reflexivity.
Defined.

(** ** Loading a snapshot *)

Lemma comprehension_keys (bindings : dict (option ref)) (ks : list string) :
  comprehension bindings (JStr <$> ks) = Ok (omap (entry_for bindings) ks).
Proof.
  induction ks as [|k ks IH]; [reflexivity|].
  rewrite fmap_cons. cbn [comprehension]. rewrite IH.
  unfold bound_command. cbn [omap list_omap]. unfold entry_for at 2.
  destruct (dict_lookup bindings k) as [[r|]|]; reflexivity.
Qed.

(** What loading a snapshot comes to: the text, then the bindings, then,
    if the bindings loaded, the two stacks. *)
Lemma load_body_snapshot (t : string) (bindings : list (string * json))
    (hs us : list string) (s : session) :
  load_body (snapshot t bindings hs us) s =
  match load_bindings bindings (clear_key_bindings (set_text t s)) with
  | (Ok _, s') =>
      (Ok true,
       Session (text s') (heap s') (key_bindings s')
               (omap (entry_for (key_bindings s')) hs)
               (omap (entry_for (key_bindings s')) us))
  | (Raise e, s') => (Raise e, s')
  | (IllTyped, s') => (IllTyped, s')
  end.
Proof.
  unfold load_body, snapshot. unfold mbind at 1, M_bind; simpl.
  unfold mbind, M_bind, update, lift; simpl.
  destruct (load_bindings bindings _) as [[[]|e|] s']; try reflexivity.
  unfold rebuild; simpl. rewrite !comprehension_keys. reflexivity.
Qed.

Lemma json_null (v : json) : v = JNull ∨ v ≠ JNull.
Proof. destruct v; auto; right; discriminate. Qed.

Lemma load_bindings_null (k : string) (rest : list (string * json)) (s : session) :
  load_bindings ((k, JNull) :: rest) s = load_bindings rest (bind_key k None s).
Proof. reflexivity. Qed.

Lemma load_bindings_command (k : string) (command_data : json) (c : Command)
    (rest : list (string * json)) (s : session) :
  command_data ≠ JNull → build_command command_data = Ok c →
  load_bindings ((k, command_data) :: rest) s =
  load_bindings rest (bind_key k (Some (length (heap s))) (alloc c s).2).
Proof.
  intros Hn Hc. destruct command_data; try contradiction;
    cbn [load_bindings]; unfold mbind, M_bind, lift, new, update;
    rewrite Hc; reflexivity.
Qed.

Lemma load_bindings_raise (k : string) (command_data : json) (e : exn)
    (rest : list (string * json)) (s : session) :
  command_data ≠ JNull → build_command command_data = Raise e →
  load_bindings ((k, command_data) :: rest) s = (Raise e, s).
Proof.
  intros Hn Hc. destruct command_data; try contradiction;
    cbn [load_bindings]; unfold mbind, M_bind, lift, new, update;
    rewrite Hc; reflexivity.
Qed.

Lemma load_bindings_ill_typed (k : string) (command_data : json)
    (rest : list (string * json)) (s : session) :
  command_data ≠ JNull → build_command command_data = IllTyped →
  load_bindings ((k, command_data) :: rest) s = (IllTyped, s).
Proof.
  intros Hn Hc. destruct command_data; try contradiction;
    cbn [load_bindings]; unfold mbind, M_bind, lift, new, update;
    rewrite Hc; reflexivity.
Qed.

(** The cases of loading one more binding. *)
Lemma load_bindings_cons (k : string) (command_data : json)
    (rest : list (string * json)) (s : session) :
  (command_data = JNull ∧
   load_bindings ((k, command_data) :: rest) s =
   load_bindings rest (bind_key k None s)) ∨
  (command_data ≠ JNull ∧ ∃ c, build_command command_data = Ok c ∧
   load_bindings ((k, command_data) :: rest) s =
   load_bindings rest (bind_key k (Some (length (heap s))) (alloc c s).2)) ∨
  (¬ loadable command_data ∧ ∃ r,
   load_bindings ((k, command_data) :: rest) s = (r, s) ∧ ∀ u, r ≠ Ok u).
Proof.
  destruct (json_null command_data) as [->|Hn]; [left; split; reflexivity|].
  right. destruct (build_command command_data) as [c|e|] eqn:Hc.
  - left. split; [assumption|]. exists c. split; [reflexivity|].
    by apply load_bindings_command.
  - right. split.
    + intros [?|[c Hc']]; [contradiction | congruence].
    + exists (Raise e). split; [by apply load_bindings_raise | discriminate].
  - right. split.
    + intros [?|[c Hc']]; [contradiction | congruence].
    + exists IllTyped. split; [by apply load_bindings_ill_typed | discriminate].
Qed.

(** Loading bindings touches the objects (it adds some) and the table only. *)
Lemma load_bindings_frame (items : list (string * json)) (s : session) :
  text (load_bindings items s).2 = text s ∧
  history (load_bindings items s).2 = history s ∧
  undo_stack (load_bindings items s).2 = undo_stack s ∧
  ∃ more, heap (load_bindings items s).2 = heap s ++ more.
Proof.
  revert s. induction items as [|[k cd] items IH]; intros s.
  - simpl. repeat split. exists []. by rewrite app_nil_r.
  - destruct (load_bindings_cons k cd items s)
      as [[_ ->]|[(_ & c & _ & ->)|(_ & r & -> & _)]].
    + apply (IH (bind_key k None s)).
    + destruct (IH (bind_key k (Some (length (heap s))) (alloc c s).2))
        as (-> & -> & -> & more & ->).
      simpl. repeat split. exists (c :: more). by rewrite <- app_assoc.
    + simpl. repeat split. exists []. by rewrite app_nil_r.
Qed.

Lemma load_bindings_Ok (items : list (string * json)) (s : session) :
  Forall loadable items.*2 ↔ ∃ s', load_bindings items s = (Ok (), s').
Proof.
  revert s. induction items as [|[k cd] items IH]; intros s.
  - split; [intros _; by exists s | constructor].
  - rewrite fmap_cons, Forall_cons. cbn [snd].
    destruct (load_bindings_cons k cd items s)
      as [[-> ->]|[(Hn & c & Hc & ->)|(Hn & r & -> & Hr)]].
    + rewrite <- IH. split; [by intros [_ ?] | intros ?; split; [by left | done]].
    + rewrite <- IH.
      split; [by intros [_ ?] | intros ?; split; [right; by exists c | done]].
    + split; [by intros [? _]|].
      intros [s' [= H _]]. by destruct (Hr ()).
Qed.

(** The bindings before the first one that cannot be loaded are installed,
    and the exception leaves the loop there. *)
Lemma load_bindings_stops (before after : list (string * json)) (k : string)
    (command_data : json) (e : exn) (s : session) :
  Forall loadable before.*2 →
  command_data ≠ JNull → build_command command_data = Raise e →
  load_bindings (before ++ (k, command_data) :: after) s =
  (Raise e, (load_bindings before s).2).
Proof.
  intros Hb Hn He. revert s Hb.
  induction before as [|[k0 cd0] before IH]; intros s Hb.
  - by apply load_bindings_raise.
  - rewrite fmap_cons in Hb. apply Forall_cons in Hb as [H0 Hb]. cbn [snd] in H0.
    rewrite <- app_comm_cons.
    destruct (load_bindings_cons k0 cd0 (before ++ (k, command_data) :: after) s)
      as [[-> ->]|[(Hn0 & c & Hc & ->)|(Hn0 & _)]]; [| |contradiction].
    + rewrite IH by assumption. reflexivity.
    + rewrite IH by assumption. by rewrite (load_bindings_command k0 cd0 c).
Qed.

(** The table after the bindings of a snapshot have been loaded. *)
Lemma load_bindings_table (items : list (string * json)) (s s' : session) :
  NoDup items.*1 → load_bindings items s = (Ok (), s') →
  ∀ k,
    match dict_lookup items k with
    | None => dict_lookup (key_bindings s') k = dict_lookup (key_bindings s) k
    | Some command_data =>
        (command_data = JNull ∧ dict_lookup (key_bindings s') k = Some None) ∨
        (command_data ≠ JNull ∧ ∃ r c,
           build_command command_data = Ok c ∧
           dict_lookup (key_bindings s') k = Some (Some r) ∧
           heap s' !! r = Some c)
    end.
Proof.
  revert s. induction items as [|[k0 cd0] items IH]; intros s Hnd Hload k.
  - injection Hload as ->. reflexivity.
  - rewrite fmap_cons in Hnd. apply NoDup_cons in Hnd as [Hk0 Hnd].
    cbn [fst] in Hk0.
    pose proof (load_bindings_frame items) as Hframe.
    cbn [dict_lookup].
    destruct (load_bindings_cons k0 cd0 items s)
      as [[-> Hstep]|[(Hn & c & Hc & Hstep)|(_ & r & Hstep & Hr)]];
      rewrite Hstep in Hload.
    + specialize (IH _ Hnd Hload). destruct (decide (k0 = k)) as [<-|Hne].
      * left. split; [reflexivity|]. specialize (IH k0).
        apply dict_lookup_None in Hk0. rewrite Hk0 in IH. rewrite IH.
        apply dict_lookup_set_eq.
      * specialize (IH k). destruct (dict_lookup items k); [assumption|].
        rewrite IH. simpl. by apply dict_lookup_set_ne.
    + specialize (Hframe (bind_key k0 (Some (length (heap s))) (alloc c s).2)).
      rewrite Hload in Hframe. destruct Hframe as (_ & _ & _ & more & Hheap).
      specialize (IH _ Hnd Hload). destruct (decide (k0 = k)) as [<-|Hne].
      * right. split; [assumption|]. exists (length (heap s)), c.
        split; [assumption|]. specialize (IH k0).
        apply dict_lookup_None in Hk0. rewrite Hk0 in IH. rewrite IH.
        split; [apply dict_lookup_set_eq|].
        simpl in Hheap. simpl. rewrite Hheap, <- app_assoc.
        rewrite lookup_app_r, Nat.sub_diag by reflexivity. reflexivity.
      * specialize (IH k). destruct (dict_lookup items k); [assumption|].
        rewrite IH. simpl. by apply dict_lookup_set_ne.
    + simplify_eq. by destruct (Hr ()).
Qed.

Lemma load_bindings_unbound (items : list (string * json)) (s : session) (k : string) :
  k ∉ items.*1 → dict_lookup (key_bindings s) k = None →
  dict_lookup (key_bindings (load_bindings items s).2) k = None.
Proof.
  revert s. induction items as [|[k0 cd0] items IH]; intros s Hk Hs; [assumption|].
  rewrite fmap_cons in Hk. apply not_elem_of_cons in Hk as [Hne Hk]. cbn [fst] in Hne.
  destruct (load_bindings_cons k0 cd0 items s)
    as [[_ ->]|[(_ & c & _ & ->)|(_ & r & -> & _)]]; [| |assumption].
  - apply IH; [assumption|]. simpl. by rewrite dict_lookup_set_ne.
  - apply IH; [assumption|]. simpl. by rewrite dict_lookup_set_ne.
Qed.

Lemma class_names_unknown (name : string) :
  name ∉ known_classes → class_names (JStr name) = Raise KeyError.
Proof.
  intros H. unfold class_names.
  repeat (case_decide; [exfalso; apply H; subst name; compute_done|]).
  reflexivity.
Qed.

Lemma build_command_unknown_kind (command_data : json) :
  unknown_kind command_data →
  command_data ≠ JNull ∧ build_command command_data = Raise KeyError.
Proof.
  intros (fields & name & -> & Htag & Hname). split; [discriminate|].
  unfold build_command, subscript. rewrite Htag.
  change (Ok (JStr name) ≫= ?f) with (f (JStr name)). cbv beta.
  rewrite class_names_unknown by assumption. reflexivity.
Qed.

Lemma construct_unexpected (cls : class) (kwargs : list (string * json)) (name : string) :
  name ∈ kwargs.*1 → name ∉ parameters cls →
  construct cls (JObj kwargs) = Raise TypeError.
Proof.
  intros Hin Hout. unfold construct.
  destruct (forallb _ kwargs) eqn:Hall; [|reflexivity].
  exfalso. apply list_elem_of_fmap in Hin as ([k v] & -> & Hin).
  rewrite forallb_forall in Hall. apply list_elem_of_In in Hin.
  specialize (Hall _ Hin). by apply bool_decide_eq_true in Hall.
Qed.

Lemma construct_missing_char (kwargs : list (string * json)) :
  dict_lookup kwargs "char" = None →
  construct CPrintChar (JObj kwargs) = Raise TypeError.
Proof.
  intros H. unfold construct, argument. rewrite H.
  destruct (forallb _ kwargs); reflexivity.
Qed.

Lemma build_command_mismatched_fields (command_data : json) :
  mismatched_fields command_data →
  command_data ≠ JNull ∧ build_command command_data = Raise TypeError.
Proof.
  intros (fields & tag & cls & kwargs & -> & Htag & Hcls & Hst & H).
  split; [discriminate|].
  unfold build_command, subscript. rewrite Htag.
  change (Ok tag ≫= ?f) with (f tag). cbv beta. rewrite Hcls.
  change (Ok cls ≫= ?f) with (f cls). cbv beta. rewrite Hst.
  change (Ok (JObj kwargs) ≫= ?f) with (f (JObj kwargs)). cbv beta.
  destruct H as [(name & Hin & Hout)|[-> Hchar]].
  - eapply construct_unexpected; eassumption.
  - by apply construct_missing_char.
Qed.

Lemma load_state_snapshot (t : string) (bindings : list (string * json))
    (hs us : list string) (s : session) :
  load_state (Parsed (snapshot t bindings hs us)) s =
  match load_bindings bindings (clear_key_bindings (set_text t s)) with
  | (Ok _, s') =>
      (Returned true,
       Session (text s') (heap s') (key_bindings s')
               (omap (entry_for (key_bindings s')) hs)
               (omap (entry_for (key_bindings s')) us))
  | (Raise e, s') => (if caught e then Returned false else Uncaught e, s')
  | (IllTyped, s') => (Unmodelled, s')
  end.
Proof.
  unfold load_state. rewrite load_body_snapshot.
  destruct (load_bindings bindings _) as [[[]|e|] s']; reflexivity.
Qed.

(** A binding that raises ends the load there: the text is the snapshot's,
    the bindings before it are installed, nothing after it is. *)
Lemma load_state_stops (t : string) (before after : list (string * json))
    (k : string) (command_data : json) (e : exn) (hs us : list string) (s : session) :
  Forall loadable before.*2 →
  command_data ≠ JNull → build_command command_data = Raise e →
  load_state (Parsed (snapshot t (before ++ (k, command_data) :: after) hs us)) s =
  (if caught e then Returned false else Uncaught e,
   (load_bindings before (clear_key_bindings (set_text t s))).2).
Proof.
  intros Hb Hn He. rewrite load_state_snapshot.
  rewrite (load_bindings_stops before after k command_data e) by assumption.
  reflexivity.
Qed.

Lemma entry_for_Some (bindings : dict (option ref)) (k : string) (e : entry) :
  entry_for bindings k = Some e → key e = k ∧ linked bindings e.
Proof.
  unfold entry_for, linked.
  destruct (dict_lookup bindings k) as [[r|]|] eqn:H; intros [= <-]; auto.
Qed.

Lemma omap_entry_for_linked (bindings : dict (option ref)) (ks : list string) :
  Forall (linked bindings) (omap (entry_for bindings) ks).
Proof.
  apply Forall_forall. intros e He.
  apply list_elem_of_omap in He as (k & _ & He).
  by apply entry_for_Some in He as [_ ?].
Qed.

Lemma omap_entry_for_keys (bindings : dict (option ref)) (p : string → bool)
    (ks : list string) :
  (∀ k, p k = true ↔ is_Some (entry_for bindings k)) →
  key <$> omap (entry_for bindings) ks = List.filter p ks.
Proof.
  intros Hp. induction ks as [|k ks IH]; [reflexivity|].
  cbn [omap list_omap List.filter]. specialize (Hp k).
  destruct (entry_for bindings k) as [e|] eqn:He.
  - destruct (entry_for_Some _ _ _ He) as [<- _].
    rewrite (proj2 Hp) by eauto. rewrite fmap_cons. by f_equal.
  - destruct (p k); [|assumption].
    destruct (proj1 Hp eq_refl) as [? [=]].
Qed.

(** After the bindings of a snapshot are loaded into an empty table, a key
    gives an entry exactly when the snapshot binds it to a command. *)
Lemma loaded_entry_for (items : list (string * json)) (s s' : session) :
  NoDup items.*1 → key_bindings s = [] →
  load_bindings items s = (Ok (), s') →
  ∀ k, has_command items k = true ↔ is_Some (entry_for (key_bindings s') k).
Proof.
  intros Hnd Hs Hload k.
  pose proof (load_bindings_table items s s' Hnd Hload k) as H.
  unfold has_command, entry_for.
  destruct (dict_lookup items k) as [cd|].
  - destruct H as [[-> ->]|(Hn & r & c & _ & -> & _)].
    + split; [discriminate | intros [? [=]]].
    + split; [eauto | intros _; by destruct cd].
  - rewrite H, Hs. simpl. split; [discriminate | intros [? [=]]].
Qed.

(** ** Saving and loading again *)

Lemma build_command_data (c : Command) :
  build_command (KeyboardMemento.command_data c) = Ok c.
Proof. destruct c; reflexivity. Qed.

Lemma binding_data_Some (heap : list Command) (b : string * option ref)
    (kv : string * json) :
  KeyboardMemento.binding_data heap b = Some kv →
  kv.1 = b.1 ∧ saved_as heap b.2 kv.2.
Proof.
  destruct b as [k [r|]]; simpl.
  - destruct (heap !! r) as [c|]; simpl; [|discriminate].
    intros [= <-]. simpl. eauto.
  - intros [= <-]. auto.
Qed.

Lemma saved_lookup (heap : list Command) (bindings : dict (option ref))
    (items : list (string * json)) (k : string) :
  Forall2 (λ b kv, KeyboardMemento.binding_data heap b = Some kv) bindings items →
  match dict_lookup bindings k with
  | None => dict_lookup items k = None
  | Some b => ∃ data, dict_lookup items k = Some data ∧ saved_as heap b data
  end.
Proof.
  induction 1 as [|[k0 b0] [k1 d1] bindings items H0 _ IH]; [reflexivity|].
  apply binding_data_Some in H0 as [Hk H0]. simpl in Hk, H0. subst k1.
  simpl. destruct (decide (k0 = k)); [eauto | assumption].
Qed.

Lemma saved_keys (heap : list Command) (bindings : dict (option ref))
    (items : list (string * json)) :
  Forall2 (λ b kv, KeyboardMemento.binding_data heap b = Some kv) bindings items →
  items.*1 = bindings.*1 ∧ Forall loadable items.*2.
Proof.
  induction 1 as [|[k0 b0] [k1 d1] bindings items H0 _ [IH1 IH2]];
    [split; [reflexivity | constructor]|].
  apply binding_data_Some in H0 as [Hk H0]. simpl in Hk, H0. subst k1.
  rewrite !fmap_cons. simpl. split; [by f_equal|].
  constructor; [|assumption].
  destruct b0 as [r|]; simpl in H0.
  - destruct H0 as (c & _ & ->). right. exists c. apply build_command_data.
  - left. assumption.
Qed.

(** A well-formed session can be saved, as a snapshot of its text, its
    bindings and the keys of its stacks. *)
Lemma from_keyboard_wf (s : session) :
  wf s →
  ∃ items,
    KeyboardMemento.from_keyboard s =
      Some (snapshot (text s) items (key <$> history s) (key <$> undo_stack s)) ∧
    Forall2 (λ b kv, KeyboardMemento.binding_data (heap s) b = Some kv)
            (key_bindings s) items.
Proof.
  intros Hwf.
  assert (is_Some (mapM (KeyboardMemento.binding_data (heap s)) (key_bindings s)))
    as [items Hitems].
  { apply mapM_is_Some, Forall_forall.
    intros [k [r|]] Hin; unfold compose, KeyboardMemento.binding_data;
      cbv beta iota; [|eauto].
    assert (dict_lookup (key_bindings s) k = Some (Some r)) as Hk.
    { pose proof (wf_keys s Hwf) as Hnd. clear Hwf.
      induction (key_bindings s) as [|[k0 b0] l IH]; [by apply elem_of_nil in Hin|].
      rewrite fmap_cons in Hnd. apply NoDup_cons in Hnd as [Hk0 Hnd].
      apply elem_of_cons in Hin as [[= <- <-]|Hin]; simpl.
      - by rewrite decide_True.
      - rewrite decide_False; [by apply IH|]. intros ->. apply Hk0.
        apply list_elem_of_fmap. by exists (k, Some r). }
    apply (wf_bound s Hwf), lookup_lt_is_Some in Hk as [c ->]. simpl. eauto. }
  exists items. split; [|by apply mapM_Some].
  unfold KeyboardMemento.from_keyboard. rewrite Hitems. simpl.
  unfold snapshot. by rewrite <- !list_fmap_compose.
Qed.

(** The object a key is bound to in a session is, after saving and loading,
    an object with the same fields bound to the same key. *)
Lemma reloaded_binding (s s1 s2 : session) (items : list (string * json))
    (k : string) (r : ref) (c : Command) :
  wf s →
  Forall2 (λ b kv, KeyboardMemento.binding_data (heap s) b = Some kv)
          (key_bindings s) items →
  load_bindings items s1 = (Ok (), s2) →
  dict_lookup (key_bindings s) k = Some (Some r) → heap s !! r = Some c →
  ∃ r', dict_lookup (key_bindings s2) k = Some (Some r') ∧ heap s2 !! r' = Some c.
Proof.
  intros Hwf Hsaved Hload Hk Hc.
  destruct (saved_keys _ _ _ Hsaved) as [Hkeys _].
  pose proof (saved_lookup _ _ _ k Hsaved) as Hitem. rewrite Hk in Hitem.
  destruct Hitem as (data & Hdata & c' & Hc' & ->).
  assert (c' = c) as -> by congruence.
  assert (NoDup items.*1) as Hnd by (rewrite Hkeys; apply Hwf).
  pose proof (load_bindings_table items s1 s2 Hnd Hload k) as Ht.
  rewrite Hdata in Ht. destruct Ht as [[[=] _]|(_ & r' & c' & Hb & Hk' & Hr')].
  rewrite build_command_data in Hb. injection Hb as <-. eauto.
Qed.

Lemma reload_undo (s target : session) (items : list (string * json)) :
  wf s →
  Forall2 (λ b kv, KeyboardMemento.binding_data (heap s) b = Some kv)
          (key_bindings s) items →
  ∃ s',
    load_state
      (Parsed (snapshot (text s) items (key <$> history s) (key <$> undo_stack s)))
      target = (Returned true, s') ∧
    text s' = text s ∧
    ∃ out u u',
      VirtualKeyboard.undo s = Some (out, u) ∧
      VirtualKeyboard.undo s' = Some (out, u') ∧
      text u' = text u.
Proof.
  intros Hwf Hsaved.
  destruct (saved_keys _ _ _ Hsaved) as [_ Hloadable].
  apply (load_bindings_Ok items (clear_key_bindings (set_text (text s) target)))
    in Hloadable as [s2 Hload].
  rewrite load_state_snapshot, Hload.
  pose proof (load_bindings_frame items (clear_key_bindings (set_text (text s) target)))
    as (Htext & _). rewrite Hload in Htext. simpl in Htext.
  eexists. split; [reflexivity|]. split; [exact Htext|].
  destruct (history s) as [|top rest _] eqn:Hh using rev_ind.
  - eexists _, _, _. split; [by apply undo_empty|].
    split; [by apply undo_empty | exact Htext].
  - assert (linked (key_bindings s) top) as Hl.
    { pose proof (wf_history s Hwf) as H. rewrite Hh in H.
      apply Forall_app in H as [_ H]. exact (Forall_inv H). }
    destruct (wf_deref s (key top) (command top) Hwf) as [c Hc];
      [by apply get_binding_Some|].
    destruct (reloaded_binding s _ s2 items (key top) (command top) c
                Hwf Hsaved Hload Hl Hc) as (r' & Hk' & Hr').
    eexists _, _, _. split; [eapply undo_top; eassumption|].
    split.
    + rewrite (undo_top _ (omap (entry_for (key_bindings s2)) (key <$> rest))
                 (Entry (key top) r') c).
      * simpl. rewrite Htext. reflexivity.
      * simpl. rewrite fmap_app, omap_app. f_equal.
        simpl. unfold entry_for. rewrite Hk'. reflexivity.
      * exact Hr'.
    + reflexivity.
Qed.

(** C1: press any keys on a keyboard with the default bindings, save, and
    load what was saved: the load succeeds, the text is the text of the
    session that was saved, and one more [undo] returns the same string, and
    leaves the same text, in the loaded session as in the saved one. *)
Theorem save_load_roundtrip (keys : list string) (t0 : string) (target : session) :
  ∃ outs s state s',
    run (Press <$> keys) (VirtualKeyboard.init t0 []) = Some (outs, s) ∧
    KeyboardMemento.from_keyboard s = Some state ∧
    load_state (Parsed state) target = (Returned true, s') ∧
    text s' = text s ∧
    ∃ out u u',
      VirtualKeyboard.undo s = Some (out, u) ∧
      VirtualKeyboard.undo s' = Some (out, u') ∧
      text u' = text u.
Proof.
  destruct (run_wf (Press <$> keys) _ (init_wf t0)) as (outs & s & Hrun & Hwf).
  destruct (from_keyboard_wf s Hwf) as (items & Hsave & Hsaved).
  destruct (reload_undo s target items Hwf Hsaved) as (s' & Hload & Htext & Hundo).
  eexists outs, s, _, s'. repeat split; eassumption.
Qed.

(** C5, as stated, fails: a snapshot whose history lists [ghost], which is
    no key of its bindings, and whose one binding is of an unknown class
    does not load; [load_state] returns [False] and rebuilds no stack. *)
Lemma orphan_token_beside_unknown_class :
  let loaded :=
    load_state (Parsed (snapshot "hi" [("q", laser_data)] ["ghost"] []))
               a_pressed in
  loaded.1 = Returned false ∧
  history loaded.2 = history a_pressed ∧
  history loaded.2 = [Entry "a" 0].
Proof. repeat split. Qed.

(** C5, amended: in a snapshot whose bindings have distinct keys and all
    load (each is [null], or names a known class with fields that fit its
    constructor and have their declared types), a key of the saved history
    or undo stack that is no key of the saved bindings, or is bound to
    [null] there, does not fail the load: [load_state] returns [True], and
    each rebuilt stack holds, in order, the listed keys that are bound to a
    command, each with the command its key is now bound to. *)
Theorem orphan_tokens_are_dropped (t : string) (items : list (string * json))
    (hs us : list string) (s : session) :
  NoDup items.*1 → Forall loadable items.*2 →
  ∃ s',
    load_state (Parsed (snapshot t items hs us)) s = (Returned true, s') ∧
    key <$> history s' = List.filter (has_command items) hs ∧
    key <$> undo_stack s' = List.filter (has_command items) us ∧
    Forall (linked (key_bindings s')) (history s') ∧
    Forall (linked (key_bindings s')) (undo_stack s').
Proof.
  intros Hnd Hok.
  apply (load_bindings_Ok items (clear_key_bindings (set_text t s))) in Hok as [s2 Hload].
  rewrite load_state_snapshot, Hload. eexists. split; [reflexivity|]. simpl.
  pose proof (loaded_entry_for items (clear_key_bindings (set_text t s)) s2
                Hnd eq_refl Hload) as Hp.
  rewrite !(omap_entry_for_keys _ (has_command items)) by assumption.
  auto using omap_entry_for_linked.
Qed.

Lemma orphan_tokens_are_dropped_witness :
  let s := VirtualKeyboard.init "" [] in
  let hs := ["a"; "ghost"; "undo"; "a"] in
  let us := ["ghost"] in
  (NoDup ghost_bindings.*1 ∧ Forall loadable ghost_bindings.*2) ∧
  ∃ s',
    load_state (Parsed (snapshot "aa" ghost_bindings hs us)) s = (Returned true, s') ∧
    key <$> history s' = List.filter (has_command ghost_bindings) hs ∧
    key <$> undo_stack s' = List.filter (has_command ghost_bindings) us ∧
    Forall (linked (key_bindings s')) (history s') ∧
    Forall (linked (key_bindings s')) (undo_stack s').
Proof.
  intros s hs us.
  assert (NoDup ghost_bindings.*1) as Hnd by compute_done.
  assert (Forall loadable ghost_bindings.*2) as Hok.
  { apply Forall_cons. split; [right; eexists; reflexivity|].
    apply Forall_cons. split; [by left | constructor]. }
  split; [by split|].
  apply (orphan_tokens_are_dropped "aa" ghost_bindings hs us s Hnd Hok).
Defined.

(** C4, as stated, fails: loading a snapshot whose second binding has an
    unknown class into a fresh keyboard returns [False]; the first binding
    is installed, the well-formed binding after the bad one is not, and the
    saved history, which lists two bound keys, is not rebuilt. *)
Lemma unknown_class_fails_whole_load :
  let loaded := load_state (Parsed laser_snapshot) (VirtualKeyboard.init "" []) in
  loaded.1 = Returned false ∧
  text loaded.2 = "hi" ∧
  key_bindings loaded.2 = [("a", Some 7)] ∧
  dict_lookup (key_bindings loaded.2) "b" = None ∧
  history loaded.2 = [] ∧
  undo_stack loaded.2 = [].
Proof. repeat split. Qed.

(** C4, amended: a binding whose kind tag names no class, or whose field map
    does not fit the constructor of its class, ends the load at that
    binding.  The load does not return [True]; for an unknown kind it
    returns [False].  In both cases the text is already the snapshot's and
    the bindings before the bad one are installed, while no key from there
    on is bound and neither stack is rebuilt.  A state without a text
    makes the load return [False] with nothing changed. *)
Theorem bad_binding_fails_the_load (t : string) (before after : list (string * json))
    (k : string) (command_data : json) (hs us : list string) (s : session) :
  Forall loadable before.*2 →
  unknown_kind command_data ∨ mismatched_fields command_data →
  (∃ res s',
     load_state (Parsed (snapshot t (before ++ (k, command_data) :: after) hs us)) s
       = (res, s') ∧
     res ≠ Returned true ∧
     (unknown_kind command_data → res = Returned false) ∧
     s' = (load_bindings before (clear_key_bindings (set_text t s))).2 ∧
     text s' = t ∧ history s' = history s ∧ undo_stack s' = undo_stack s ∧
     ∀ k', k' ∉ before.*1 → dict_lookup (key_bindings s') k' = None) ∧
  (∀ fields, dict_lookup fields "text" = None →
     load_state (Parsed (JObj fields)) s = (Returned false, s)).
Proof.
  intros Hb Hbad. split.
  - assert (∃ e, command_data ≠ JNull ∧ build_command command_data = Raise e ∧
                 (unknown_kind command_data → e = KeyError)) as (e & Hn & He & Hk).
    { destruct Hbad as [H|H].
      - exists KeyError. by destruct (build_command_unknown_kind _ H).
      - exists TypeError. destruct (build_command_mismatched_fields _ H) as [? Ht].
        repeat split; try assumption.
        intros H'. destruct (build_command_unknown_kind _ H'). congruence. }
    eexists _, _. split; [by apply (load_state_stops t before after k command_data e)|].
    pose proof (load_bindings_frame before (clear_key_bindings (set_text t s)))
      as (Htext & Hh & Hu & _).
    split; [by destruct e|]. split; [by intros ->%Hk|]. split; [reflexivity|].
    split; [exact Htext|]. split; [exact Hh|]. split; [exact Hu|].
    intros k' Hk'. by apply load_bindings_unbound.
  - intros fields Hf. unfold load_state, load_body, subscript. rewrite Hf. reflexivity.
Qed.

Lemma bad_binding_fails_the_load_witness :
  let before := [("a", KeyboardMemento.command_data (PrintCharCommand "a"))] in
  let after := [("b", KeyboardMemento.command_data (PrintCharCommand "b"))] in
  let s := VirtualKeyboard.init "" [] in
  (Forall loadable before.*2 ∧
   (unknown_kind laser_data ∨ mismatched_fields laser_data)) ∧
  (∃ res s',
     load_state (Parsed (snapshot "hi" (before ++ ("q", laser_data) :: after)
                                  ["a"; "b"] [])) s = (res, s') ∧
     res ≠ Returned true ∧
     (unknown_kind laser_data → res = Returned false) ∧
     s' = (load_bindings before (clear_key_bindings (set_text "hi" s))).2 ∧
     text s' = "hi" ∧ history s' = history s ∧ undo_stack s' = undo_stack s ∧
     ∀ k', k' ∉ before.*1 → dict_lookup (key_bindings s') k' = None) ∧
  (∀ fields, dict_lookup fields "text" = None →
     load_state (Parsed (JObj fields)) s = (Returned false, s)).
Proof.
  intros before after s.
  assert (Forall loadable before.*2) as Hb.
  { apply Forall_cons. split; [right; eexists; reflexivity | constructor]. }
  assert (unknown_kind laser_data) as Hk.
  { exists [("class", JStr "LaserCommand"); ("state", JObj [])], "LaserCommand".
    split; [reflexivity|]. split; [reflexivity|]. compute_done. }
  split; [split; [exact Hb | left; exact Hk]|].
  apply (bad_binding_fails_the_load "hi" before after "q" laser_data
           ["a"; "b"] [] s Hb (or_introl Hk)).
Defined.

(** C9: a load that fails is not undone.  For the snapshot with one binding
    of an unknown class, [load_state] returns [False], and yet the text is
    the snapshot's text and the bindings the keyboard had are gone; on a
    fresh keyboard with an empty text both differ from what they were. *)
Theorem failed_load_is_not_atomic (t : string) (hs us : list string) (s : session) :
  ∃ s',
    load_state (Parsed (snapshot t [("q", laser_data)] hs us)) s = (Returned false, s') ∧
    text s' = t ∧ key_bindings s' = [] ∧
    heap s' = heap s ∧ history s' = history s ∧ undo_stack s' = undo_stack s ∧
    ∃ s0',
      load_state (Parsed (snapshot "hi" [("q", laser_data)] [] []))
                 (VirtualKeyboard.init "" []) = (Returned false, s0') ∧
      text s0' ≠ text (VirtualKeyboard.init "" []) ∧
      key_bindings s0' ≠ key_bindings (VirtualKeyboard.init "" []).
Proof.
  eexists. split; [reflexivity|]. repeat split.
  eexists. split; [reflexivity|]. split; discriminate.
Qed.

(** * Further properties *)

(** ** The commands *)

Lemma length_append (a b : string) :
  String.length (a +:+ b) = String.length a + String.length b.
Proof.
  induction a as [|x a IH]; [reflexivity|].
  rewrite append_cons. simpl. by rewrite IH.
Qed.

Lemma drop_last_append (t ch : string) :
  ch ≠ "" → drop_last (t +:+ ch) = t +:+ drop_last ch.
Proof.
  intros Hch. induction t as [|x t IH]; [reflexivity|].
  rewrite !append_cons. simpl. rewrite IH.
  destruct (t +:+ ch) eqn:Ht; [|reflexivity].
  destruct t; [simpl in Ht; contradiction | discriminate].
Qed.

Lemma length_drop_last (s : string) :
  String.length (drop_last s) = String.length s - 1.
Proof.
  induction s as [|x s IH]; [reflexivity|].
  destruct s as [|y s]; [reflexivity|].
  change (drop_last (String x (String y s))) with (String x (drop_last (String y s))).
  simpl String.length in *. rewrite IH. lia.
Qed.

(** X1: a volume command is restored by [undo] after [execute] and by
    [execute] after [undo], whatever its amount and level, and neither
    touches the text. *)
Theorem volume_undo_inverts_execute (amount level : Z) (t : string) (up : bool) :
  let c := if up then VolumeUpCommand amount level
           else VolumeDownCommand amount level in
  let e := Cmd.execute c t in
  let u := Cmd.undo c t in
  self_after (Cmd.undo (self_after e) (text_after e)) = c ∧
  self_after (Cmd.execute (self_after u) (text_after u)) = c ∧
  text_after (Cmd.undo (self_after e) (text_after e)) = t ∧
  text_after (Cmd.execute (self_after u) (text_after u)) = t.
Proof.
  destruct up; simpl; repeat split; f_equal; lia.
Qed.

(** X2: [undo] after [execute] of a [PrintCharCommand] gives the text back
    when the command holds one character; when it holds more, only the last
    of them is removed and the text is not what it was. *)
Theorem print_undo_removes_one_character (char t : string) :
  let e := Cmd.execute (PrintCharCommand char) t in
  let u := Cmd.undo (self_after e) (text_after e) in
  self_after u = PrintCharCommand char ∧
  (String.length char = 1 → text_after u = t) ∧
  ((2 ≤ String.length char)%nat →
   text_after u = t +:+ drop_last char ∧ text_after u ≠ t).
Proof.
  simpl. split; [reflexivity|]. split.
  - apply drop_last_snoc.
  - intros Hlen. assert (char ≠ "") as Hne by (intros ->; simpl in Hlen; lia).
    rewrite drop_last_append by assumption. split; [reflexivity|].
    intros Heq. apply (f_equal String.length) in Heq.
    rewrite length_append, length_drop_last in Heq. lia.
Qed.

Lemma print_undo_removes_one_character_witness :
  (String.length "x" = 1 ∧ (2 ≤ String.length "xyz")%nat) ∧
  text_after (Cmd.undo (PrintCharCommand "x")
                       (text_after (Cmd.execute (PrintCharCommand "x") "ab"))) = "ab" ∧
  text_after (Cmd.undo (PrintCharCommand "xyz")
                       (text_after (Cmd.execute (PrintCharCommand "xyz") "ab")))
    = "ab" +:+ drop_last "xyz".
Proof.
  split; [split; [reflexivity | simpl; lia]|].
  split.
  - apply (proj1 (proj2 (print_undo_removes_one_character "x" "ab"))). reflexivity.
  - apply (proj2 (proj2 (print_undo_removes_one_character "xyz" "ab"))). simpl; lia.
Defined.

(** ** Invariants of the keyboard *)

(** An invariant of [transition] that implies well-formedness holds after
    any operations, and every operation returns. *)
Lemma run_invariant (P : session → Prop) (ops : list op) (s : session) :
  (∀ s, P s → wf s) →
  (∀ s out s', P s → transition s out s' → P s') →
  P s → ∃ outs s', run ops s = Some (outs, s') ∧ P s'.
Proof.
  intros Hwf Hstep. revert s. induction ops as [|o ops IH]; intros s Hs; simpl.
  - eauto.
  - destruct (step_transition s o (Hwf s Hs)) as (out & s1 & -> & Ht). simpl.
    destruct (IH s1) as (outs & s2 & -> & Hs2); [eapply Hstep; eassumption|].
    simpl. eauto.
Qed.

Lemma transition_bindings (s s' : session) (out : string) :
  transition s out s' →
  key_bindings s' = key_bindings s ∨
  ∃ k, String.length k = 1 ∧ get_binding s k = None ∧
       key_bindings s' = dict_set (key_bindings s) k (Some (length (heap s))) ∧
       heap s' = heap s ++ [PrintCharCommand k].
Proof. destruct 1; simpl; eauto 6. Qed.

Lemma transition_keeps_binding (s s' : session) (out k : string) (r : ref) :
  transition s out s' →
  dict_lookup (key_bindings s) k = Some (Some r) →
  dict_lookup (key_bindings s') k = Some (Some r).
Proof.
  intros Ht Hk.
  destruct (transition_bindings _ _ _ Ht) as [->|(k0 & _ & Hk0 & -> & _)];
    [assumption|].
  rewrite dict_lookup_set_ne; [assumption|]. intros ->.
  apply get_binding_Some in Hk. congruence.
Qed.

Lemma transition_solid (s s' : session) (out : string) :
  solid s → transition s out s' → solid s'.
Proof.
  intros [Hwf Hinj] Ht. split; [eapply transition_wf; eassumption|].
  destruct (transition_bindings _ _ _ Ht) as [->|(k0 & _ & Hk0 & -> & _)];
    [assumption|].
  intros k1 k2 r. rewrite !dict_lookup_set.
  destruct (decide (k0 = k1)) as [<-|H1], (decide (k0 = k2)) as [<-|H2];
    try done.
  - intros [= <-] H. apply (wf_bound s Hwf) in H. lia.
  - intros H [= <-]. apply (wf_bound s Hwf) in H. lia.
  - apply Hinj.
Qed.

Lemma init_solid (t : string) : solid (VirtualKeyboard.init t []).
Proof.
  split; [apply init_wf|]. intros k1 k2 r. simpl.
  repeat case_decide; intros; simplify_eq; reflexivity.
Qed.

Lemma method_class (c : Command) (t : string) :
  KeyboardMemento.class_name (self_after (Cmd.execute c t)) = KeyboardMemento.class_name c ∧
  KeyboardMemento.class_name (self_after (Cmd.undo c t)) = KeyboardMemento.class_name c ∧
  KeyboardMemento.class_name (self_after (Cmd.redo c t)) = KeyboardMemento.class_name c ∧
  printed (self_after (Cmd.execute c t)) = printed c ∧
  printed (self_after (Cmd.undo c t)) = printed c ∧
  printed (self_after (Cmd.redo c t)) = printed c.
Proof. destruct c; repeat split. Qed.

(** The objects stay where they are and keep their class and character. *)
Lemma transition_keeps_object (s s' : session) (out : string) (r : ref) (c : Command) :
  transition s out s' → heap s !! r = Some c →
  ∃ c', heap s' !! r = Some c' ∧
        KeyboardMemento.class_name c' = KeyboardMemento.class_name c ∧
        printed c' = printed c.
Proof.
  intros Ht Hr.
  assert (∀ r0 c0 c1, heap s !! r0 = Some c0 →
            KeyboardMemento.class_name c1 = KeyboardMemento.class_name c0 →
            printed c1 = printed c0 →
            ∃ c', <[r0 := c1]> (heap s) !! r = Some c' ∧
                  KeyboardMemento.class_name c' = KeyboardMemento.class_name c ∧
                  printed c' = printed c) as Hins.
  { intros r0 c0 c1 H0 Hcl Hpr. destruct (decide (r0 = r)) as [->|Hne].
    - rewrite list_lookup_insert_eq by (eapply lookup_lt_Some; eassumption).
      exists c1. assert (c0 = c) as -> by congruence. auto.
    - rewrite list_lookup_insert_ne by assumption. eauto. }
  destruct Ht as [out|k r0 c0 Hbk Hc e|k Hlen Hbk|rest top c0 Hh Hc e|rest top c0 Hu Hc e];
    simpl.
  - eauto.
  - eapply Hins; [eassumption | apply method_class..].
  - rewrite lookup_app_l by (eapply lookup_lt_Some; eassumption). eauto.
  - eapply Hins; [eassumption | apply method_class..].
  - eapply Hins; [eassumption | apply method_class..].
Qed.

Lemma print_command_eq (c : Command) (k : string) :
  KeyboardMemento.class_name c = KeyboardMemento.class_name (PrintCharCommand k) →
  printed c = printed (PrintCharCommand k) → c = PrintCharCommand k.
Proof. destruct c; simpl; intros; try discriminate. by subst. Qed.

Lemma transition_chars (s s' : session) (out : string) :
  chars_print_themselves s → transition s out s' →
  chars_print_themselves s'.
Proof.
  intros Hs Ht k r Hlen Hk.
  assert (∀ r, heap s !! r = Some (PrintCharCommand k) →
               heap s' !! r = Some (PrintCharCommand k)) as Hkeep.
  { intros r0 H0.
    destruct (transition_keeps_object s s' out r0 _ Ht H0) as (c' & -> & Hcl & Hp).
    f_equal. by apply print_command_eq. }
  destruct (transition_bindings _ _ _ Ht) as [Hb|(k0 & Hlen0 & Hk0 & Hb & Hheap)];
    rewrite Hb in Hk.
  - by apply Hkeep, Hs.
  - rewrite dict_lookup_set in Hk. destruct (decide (k0 = k)) as [->|Hne].
    + injection Hk as <-. rewrite Hheap.
      rewrite lookup_app_r, Nat.sub_diag by reflexivity. reflexivity.
    + by apply Hkeep, Hs.
Qed.

Lemma init_chars (t : string) : chars_print_themselves (VirtualKeyboard.init t []).
Proof.
  intros k r Hlen. simpl.
  repeat case_decide; intros; simplify_eq; try reflexivity; discriminate.
Qed.

(** X3: after any calls of [press_key], [undo] and [redo] on a new keyboard,
    whatever the text was, every call has returned, the entries of both
    stacks hold the object their key is bound to, no object is bound to two
    keys, and a bound single character is bound to the command that prints
    it. *)
Theorem new_keyboard_stays_sound (ops : list op) (t : string) :
  ∃ outs s,
    run ops (VirtualKeyboard.init t []) = Some (outs, s) ∧
    wf s ∧ injective (key_bindings s) ∧ chars_print_themselves s.
Proof.
  destruct (run_invariant (λ s, solid s ∧ chars_print_themselves s) ops
              (VirtualKeyboard.init t [])) as (outs & s & Hrun & [Hwf Hinj] & Hch).
  - by intros s [[] _].
  - intros s out s' [Hs Hc] Ht. split; [eapply transition_solid; eassumption|].
    eapply transition_chars; eassumption.
  - split; [apply init_solid | apply init_chars].
  - exists outs, s. auto.
Qed.

(** X4: a key bound to a command stays bound to that very object through
    any calls of [press_key], [undo] and [redo], and the object keeps its
    class and, for a [PrintCharCommand], its character. *)
Theorem bound_keys_stay_bound (ops : list op) (s : session) (k : string)
    (r : ref) (c : Command) :
  wf s →
  dict_lookup (key_bindings s) k = Some (Some r) → heap s !! r = Some c →
  ∃ outs s' c',
    run ops s = Some (outs, s') ∧
    dict_lookup (key_bindings s') k = Some (Some r) ∧
    heap s' !! r = Some c' ∧
    KeyboardMemento.class_name c' = KeyboardMemento.class_name c ∧
    printed c' = printed c.
Proof.
  intros Hwf Hk Hc.
  destruct (run_invariant
              (λ s', wf s' ∧ dict_lookup (key_bindings s') k = Some (Some r) ∧
                     ∃ c', heap s' !! r = Some c' ∧
                           KeyboardMemento.class_name c' = KeyboardMemento.class_name c ∧
                           printed c' = printed c) ops s)
    as (outs & s' & Hrun & _ & Hk' & c' & Hc' & Hcl & Hp).
  - by intros ? [].
  - intros s0 out s1 (Hwf0 & Hk0 & c0 & Hc0 & Hcl0 & Hp0) Ht.
    split; [eapply transition_wf; eassumption|].
    split; [eapply transition_keeps_binding; eassumption|].
    destruct (transition_keeps_object s0 s1 out r c0 Ht Hc0) as (c1 & ? & ? & ?).
    exists c1. repeat split; [assumption | congruence..].
  - eauto 6.
  - eauto 8.
Qed.

Lemma bound_keys_stay_bound_witness :
  let s := VirtualKeyboard.init "" [] in
  let ops := [Press "ctrl++"; Press "x"; Undo; Press "ctrl++"; Undo; Redo] in
  (wf s ∧ dict_lookup (key_bindings s) "ctrl++" = Some (Some 4) ∧
   heap s !! 4 = Some (VolumeUpCommand 20 50)) ∧
  ∃ outs s' c',
    run ops s = Some (outs, s') ∧
    dict_lookup (key_bindings s') "ctrl++" = Some (Some 4) ∧
    heap s' !! 4 = Some c' ∧
    KeyboardMemento.class_name c' =
      KeyboardMemento.class_name (VolumeUpCommand 20 50) ∧
    printed c' = printed (VolumeUpCommand 20 50).
Proof.
  intros s ops. split; [split; [apply init_wf | split; reflexivity]|].
  apply (bound_keys_stay_bound ops s "ctrl++" 4 (VolumeUpCommand 20 50));
    [apply init_wf | reflexivity | reflexivity].
Defined.

(** X5: [press_key], [undo] and [redo] never change what a key of more or
    fewer than one character is bound to; only single characters are ever
    bound by a press.  In particular [undo] and [redo] stay bound to
    [None]. *)
Theorem only_single_characters_get_bound (ops : list op) (s : session) (k : string) :
  wf s → String.length k ≠ 1 →
  ∃ outs s',
    run ops s = Some (outs, s') ∧
    dict_lookup (key_bindings s') k = dict_lookup (key_bindings s) k.
Proof.
  intros Hwf Hlen.
  destruct (run_invariant
              (λ s', wf s' ∧ dict_lookup (key_bindings s') k =
                             dict_lookup (key_bindings s) k) ops s)
    as (outs & s' & Hrun & _ & Hk).
  - by intros ? [].
  - intros s0 out s1 [Hwf0 Hk0] Ht. split; [eapply transition_wf; eassumption|].
    destruct (transition_bindings _ _ _ Ht) as [->|(k0 & Hlen0 & _ & -> & _)];
      [assumption|].
    rewrite dict_lookup_set_ne; [assumption|]. by intros ->.
  - auto.
  - eauto.
Qed.

Lemma only_single_characters_get_bound_witness :
  let s := VirtualKeyboard.init "" [] in
  let ops := [Press "undo"; Press "u"; Press "redo"; Press "undo"; Redo] in
  (wf s ∧ String.length "undo" ≠ 1) ∧
  ∃ outs s',
    run ops s = Some (outs, s') ∧
    dict_lookup (key_bindings s') "undo" = dict_lookup (key_bindings s) "undo".
Proof.
  intros s ops. split; [split; [apply init_wf | discriminate]|].
  apply (only_single_characters_get_bound ops s "undo"); [apply init_wf | discriminate].
Defined.

(** ** How the operations compose *)

Lemma execute_then_undo (c : Command) (t : string) :
  one_char c →
  let e := Cmd.execute c t in
  let u := Cmd.undo (self_after e) (text_after e) in
  text_after u = t ∧ (¬ is_media_player c → self_after u = c).
Proof.
  destruct c; simpl; intros H.
  - rewrite drop_last_snoc by assumption. auto.
  - split; [reflexivity|]. intros _. f_equal. lia.
  - split; [reflexivity|]. intros _. f_equal. lia.
  - split; [reflexivity|]. intros Hm. exfalso. apply Hm. by eexists.
Qed.

Lemma undo_then_execute (c : Command) (t0 : string) :
  one_char c →
  let u := Cmd.undo c (t0 +:+ printed c) in
  let e := Cmd.execute (self_after u) (text_after u) in
  text_after e = t0 +:+ printed c ∧ (¬ is_media_player c → self_after e = c).
Proof.
  destruct c; simpl; intros H.
  - rewrite drop_last_snoc by assumption. auto.
  - split; [reflexivity|]. intros _. f_equal. lia.
  - split; [reflexivity|]. intros _. f_equal. lia.
  - split; [reflexivity|]. intros Hm. exfalso. apply Hm. by eexists.
Qed.

(** Replacing an object twice in a row. *)
Lemma lookup_insert_twice (heap : list Command) (r r0 : ref) (c c1 c2 : Command) :
  heap !! r = Some c →
  <[r := c2]> (<[r := c1]> heap) !! r0 =
  if decide (r = r0) then Some c2 else heap !! r0.
Proof.
  intros Hr. rewrite list_insert_insert_eq.
  destruct (decide (r = r0)) as [<-|Hne].
  - apply list_lookup_insert_eq. eapply lookup_lt_Some; eassumption.
  - by apply list_lookup_insert_ne.
Qed.

(** X6: in a session whose text is accounted for by its history and whose
    history is not empty, [undo] followed by [redo] gives back the text, the
    history, the undo stack and the bindings, and every object that is no
    media player has the fields it had. *)
Theorem undo_then_redo_restores (s : session) :
  consistent s → history s ≠ [] →
  ∃ out1 out2 s',
    run [Undo; Redo] s = Some ([out1; out2], s') ∧
    text s' = text s ∧ key_bindings s' = key_bindings s ∧
    history s' = history s ∧ undo_stack s' = undo_stack s ∧
    ∀ r c, heap s !! r = Some c → ¬ is_media_player c → heap s' !! r = Some c.
Proof.
  intros [Hwf Hch Htx] Hne.
  destruct (history s) as [|top rest _] eqn:Hh using rev_ind; [done|]. clear Hne.
  assert (linked (key_bindings s) top) as Hl.
  { pose proof (wf_history s Hwf) as H. rewrite Hh in H.
    apply Forall_app in H as [_ H]. exact (Forall_inv H). }
  destruct (wf_deref s (key top) (command top) Hwf) as [c Hc];
    [by apply get_binding_Some|].
  assert (one_char c) as H1 by (eapply Forall_lookup_1; eassumption).
  assert (text s = past_chars (heap s) rest +:+ printed c) as Ht.
  { rewrite Htx, past_chars_snoc. unfold printed_by. by rewrite Hc. }
  destruct (undo_then_execute c (past_chars (heap s) rest) H1) as [Hte Hse].
  rewrite <- Ht in Hte, Hse.
  cbn [run step]. rewrite (undo_top s rest top c Hh Hc). cbn [mbind option_bind].
  erewrite redo_top; [|reflexivity|].
  2:{ simpl. apply list_lookup_insert_eq. eapply lookup_lt_Some; eassumption. }
  cbn [mbind option_bind run]. eexists _, _, _. split; [reflexivity|].
  cbn [text key_bindings history undo_stack heap]. rewrite redo_execute.
  split; [exact Hte|]. repeat split.
  intros r c0 Hr Hm. rewrite (lookup_insert_twice _ _ _ c) by assumption.
  case_decide; [|assumption]. subst r.
  assert (c0 = c) as -> by congruence. f_equal. by apply Hse.
Qed.

Lemma a_pressed_consistent : consistent a_pressed.
Proof.
  destruct (run_consistent [Press "a"] _ init_consistent) as (outs & s & Hrun & Hs).
  vm_compute in Hrun. by simplify_eq.
Qed.

Lemma a_undone_consistent : consistent a_undone.
Proof.
  destruct (run_consistent [Press "a"; Undo] _ init_consistent)
    as (outs & s & Hrun & Hs).
  rewrite a_undone_reached in Hrun. by simplify_eq.
Qed.

Lemma undo_then_redo_restores_witness :
  (consistent a_pressed ∧ history a_pressed ≠ []) ∧
  ∃ out1 out2 s',
    run [Undo; Redo] a_pressed = Some ([out1; out2], s') ∧
    text s' = text a_pressed ∧ key_bindings s' = key_bindings a_pressed ∧
    history s' = history a_pressed ∧ undo_stack s' = undo_stack a_pressed ∧
    ∀ r c, heap a_pressed !! r = Some c → ¬ is_media_player c →
           heap s' !! r = Some c.
Proof.
  split; [split; [apply a_pressed_consistent | discriminate]|].
  apply (undo_then_redo_restores a_pressed); [apply a_pressed_consistent | discriminate].
Defined.

(** X7: in a session whose text is accounted for by its history and whose
    undo stack is not empty, [redo] followed by [undo] gives back the text,
    both stacks and the bindings, and every object that is no media player
    has the fields it had. *)
Theorem redo_then_undo_restores (s : session) :
  consistent s → undo_stack s ≠ [] →
  ∃ out1 out2 s',
    run [Redo; Undo] s = Some ([out1; out2], s') ∧
    text s' = text s ∧ key_bindings s' = key_bindings s ∧
    history s' = history s ∧ undo_stack s' = undo_stack s ∧
    ∀ r c, heap s !! r = Some c → ¬ is_media_player c → heap s' !! r = Some c.
Proof.
  intros [Hwf Hch Htx] Hne.
  destruct (undo_stack s) as [|top rest _] eqn:Hu using rev_ind; [done|]. clear Hne.
  assert (linked (key_bindings s) top) as Hl.
  { pose proof (wf_undo_stack s Hwf) as H. rewrite Hu in H.
    apply Forall_app in H as [_ H]. exact (Forall_inv H). }
  destruct (wf_deref s (key top) (command top) Hwf) as [c Hc];
    [by apply get_binding_Some|].
  assert (one_char c) as H1 by (eapply Forall_lookup_1; eassumption).
  destruct (execute_then_undo c (text s) H1) as [Hte Hse].
  cbn [run step]. rewrite (redo_top s rest top c Hu Hc). cbn [mbind option_bind].
  erewrite undo_top; [|reflexivity|].
  2:{ simpl. apply list_lookup_insert_eq. eapply lookup_lt_Some; eassumption. }
  cbn [mbind option_bind run]. eexists _, _, _. split; [reflexivity|].
  cbn [text key_bindings history undo_stack heap]. rewrite redo_execute.
  split; [exact Hte|]. repeat split.
  intros r c0 Hr Hm. rewrite (lookup_insert_twice _ _ _ c) by assumption.
  case_decide; [|assumption]. subst r.
  assert (c0 = c) as -> by congruence. f_equal. by apply Hse.
Qed.

Lemma redo_then_undo_restores_witness :
  (consistent a_undone ∧ undo_stack a_undone ≠ []) ∧
  ∃ out1 out2 s',
    run [Redo; Undo] a_undone = Some ([out1; out2], s') ∧
    text s' = text a_undone ∧ key_bindings s' = key_bindings a_undone ∧
    history s' = history a_undone ∧ undo_stack s' = undo_stack a_undone ∧
    ∀ r c, heap a_undone !! r = Some c → ¬ is_media_player c →
           heap s' !! r = Some c.
Proof.
  split; [split; [apply a_undone_consistent | discriminate]|].
  apply (redo_then_undo_restores a_undone); [apply a_undone_consistent | discriminate].
Defined.

(** X8: a press that resolves to a command, followed by [undo], gives back
    the text and the history when the commands that print hold one
    character each; the undo stack then holds the pressed entry alone,
    whatever it held before, and every object that is no media player has
    the fields it had. *)
Theorem press_then_undo_restores (s : session) (k : string) :
  wf s → Forall one_char (heap s) →
  k ≠ "undo" → k ≠ "redo" →
  get_binding s k ≠ None ∨ String.length k = 1 →
  ∃ out1 out2 s' r,
    run [Press k; Undo] s = Some ([out1; out2], s') ∧
    text s' = text s ∧ history s' = history s ∧
    undo_stack s' = [Entry k r] ∧ get_binding s' k = Some r ∧
    ∀ r0 c, heap s !! r0 = Some c → ¬ is_media_player c → heap s' !! r0 = Some c.
Proof.
  intros Hwf Hch Hu Hr Hres. cbn [run step].
  destruct (get_binding s k) as [r|] eqn:Hb.
  - destruct (wf_deref s k r Hwf Hb) as [c Hc].
    assert (one_char c) as H1 by (eapply Forall_lookup_1; eassumption).
    destruct (execute_then_undo c (text s) H1) as [Hte Hse].
    rewrite (press_key_bound s k r c) by assumption. cbn [mbind option_bind].
    erewrite undo_top; [|reflexivity|].
    2:{ simpl. apply list_lookup_insert_eq. eapply lookup_lt_Some; eassumption. }
    cbn [mbind option_bind]. eexists _, _, _, r. split; [reflexivity|].
    cbn [text key_bindings history undo_stack heap command app].
    split; [exact Hte|]. split; [reflexivity|]. split; [reflexivity|].
    split; [exact Hb|].
    intros r0 c0 Hr0 Hm. rewrite (lookup_insert_twice _ _ _ c) by assumption.
    case_decide; [|assumption]. subst r0.
    assert (c0 = c) as -> by congruence. f_equal. by apply Hse.
  - destruct Hres as [?|Hlen]; [done|].
    rewrite press_key_autobind by assumption. cbn [mbind option_bind].
    erewrite undo_top; [|reflexivity|].
    2:{ simpl. rewrite lookup_app_r, Nat.sub_diag by reflexivity. reflexivity. }
    cbn [mbind option_bind]. eexists _, _, _, (length (heap s)).
    split; [reflexivity|].
    cbn [text key_bindings history undo_stack heap command app Cmd.undo
         text_after self_after].
    split; [by apply drop_last_snoc|]. split; [reflexivity|]. split; [reflexivity|].
    split.
    { unfold get_binding. cbn [key_bindings]. by rewrite dict_lookup_set_eq. }
    intros r0 c0 Hr0 _.
    rewrite list_lookup_insert_ne by (apply lookup_lt_Some in Hr0; lia).
    by rewrite lookup_app_l by (eapply lookup_lt_Some; eassumption).
Qed.

Lemma press_then_undo_restores_witness :
  (wf a_undone ∧ Forall one_char (heap a_undone) ∧
   "ctrl+-" ≠ "undo" ∧ "ctrl+-" ≠ "redo" ∧
   (get_binding a_undone "ctrl+-" ≠ None ∨ String.length "ctrl+-" = 1)) ∧
  ∃ out1 out2 s' r,
    run [Press "ctrl+-"; Undo] a_undone = Some ([out1; out2], s') ∧
    text s' = text a_undone ∧ history s' = history a_undone ∧
    undo_stack s' = [Entry "ctrl+-" r] ∧ get_binding s' "ctrl+-" = Some r ∧
    ∀ r0 c, heap a_undone !! r0 = Some c → ¬ is_media_player c →
            heap s' !! r0 = Some c.
Proof.
  assert (get_binding a_undone "ctrl+-" ≠ None ∨ String.length "ctrl+-" = 1) as H
    by (left; discriminate).
  split.
  { split; [apply a_undone_wf|]. split; [apply a_undone_consistent|].
    split; [discriminate|]. split; [discriminate | exact H]. }
  apply (press_then_undo_restores a_undone "ctrl+-");
    [apply a_undone_wf | apply a_undone_consistent | discriminate | discriminate | exact H].
Defined.

(** X9: pressing the key of a media player and undoing the press leaves the
    player closed, also when it was playing before the press. *)
Theorem media_player_undo_closes (s : session) (k : string) (r : ref)
    (is_playing : bool) :
  k ≠ "undo" → k ≠ "redo" →
  get_binding s k = Some r → heap s !! r = Some (MediaPlayerCommand is_playing) →
  ∃ s',
    run [Press k; Undo] s =
      Some (["media player launched"; "undo: media player closed"], s') ∧
    heap s' !! r = Some (MediaPlayerCommand false) ∧
    text s' = text s ∧ history s' = history s.
Proof.
  intros Hu Hr Hb Hc. cbn [run step].
  rewrite (press_key_bound s k r _ Hu Hr Hb Hc). cbn [mbind option_bind].
  erewrite undo_top; [|reflexivity|].
  2:{ simpl. apply list_lookup_insert_eq. eapply lookup_lt_Some; eassumption. }
  cbn [mbind option_bind]. eexists. split; [reflexivity|].
  cbn [text key_bindings history undo_stack heap command].
  split; [|split; reflexivity].
  rewrite (lookup_insert_twice _ _ _ (MediaPlayerCommand is_playing)) by assumption.
  by rewrite decide_True.
Qed.

Lemma media_player_undo_closes_witness :
  let s := Session "" [MediaPlayerCommand true] [("ctrl+p", Some 0)] [] [] in
  ("ctrl+p" ≠ "undo" ∧ "ctrl+p" ≠ "redo" ∧
   get_binding s "ctrl+p" = Some 0 ∧ heap s !! 0 = Some (MediaPlayerCommand true)) ∧
  ∃ s',
    run [Press "ctrl+p"; Undo] s =
      Some (["media player launched"; "undo: media player closed"], s') ∧
    heap s' !! 0 = Some (MediaPlayerCommand false) ∧
    text s' = text s ∧ history s' = history s.
Proof.
  intros s. split; [repeat split; discriminate|].
  apply (media_player_undo_closes s "ctrl+p" 0 true);
    [discriminate | discriminate | reflexivity | reflexivity].
Defined.

Lemma run_app (ops1 ops2 : list op) (s s1 s2 : session) (outs1 outs2 : list string) :
  run ops1 s = Some (outs1, s1) → run ops2 s1 = Some (outs2, s2) →
  run (ops1 ++ ops2) s = Some (outs1 ++ outs2, s2).
Proof.
  revert s outs1. induction ops1 as [|o ops1 IH]; intros s outs1 H1 H2.
  - simpl in H1. by simplify_eq.
  - cbn [app run] in *. destruct (step o s) as [[out s0]|]; [|discriminate].
    cbn [mbind option_bind] in *.
    destruct (run ops1 s0) as [[outs0 s0']|] eqn:H0; [|discriminate].
    cbn [mbind option_bind] in H1. simplify_eq.
    rewrite (IH _ _ H0 H2). reflexivity.
Qed.

Lemma join_snoc (ks : list string) (k : string) : join (ks ++ [k]) = join ks +:+ k.
Proof.
  induction ks as [|k0 ks IH]; simpl.
  - apply append_empty_r.
  - rewrite IH. symmetry. apply append_assoc.
Qed.

(** Pressing a single character appends it, whether the key was bound or
    gets bound by the press. *)
Lemma press_character (s : session) (k : string) :
  wf s → chars_print_themselves s → String.length k = 1 →
  ∃ s', VirtualKeyboard.press_key k s = Some (text s +:+ k, s') ∧
        text s' = text s +:+ k ∧
        key <$> history s' = (key <$> history s) ++ [k] ∧
        undo_stack s' = [] ∧
        wf s' ∧ chars_print_themselves s'.
Proof.
  intros Hwf Hch Hlen. destruct (single_not_reserved k Hlen) as [Hu Hr].
  destruct (press_key_transition s k Hwf) as (out & s' & Hpress & Ht).
  assert (wf s' ∧ chars_print_themselves s') as Hinv.
  { split; [eapply transition_wf | eapply transition_chars]; eassumption. }
  destruct (get_binding s k) as [r|] eqn:Hb.
  - pose proof (Hch k r Hlen (proj1 (get_binding_Some s k r) Hb)) as Hc.
    pose proof (press_key_bound s k r _ Hu Hr Hb Hc) as Hp.
    rewrite Hp in Hpress. injection Hpress as <- <-.
    eexists. split; [exact Hp|]. simpl. rewrite fmap_app. auto.
  - pose proof (press_key_autobind s k Hlen Hb) as Hp.
    rewrite Hp in Hpress. injection Hpress as <- <-.
    eexists. split; [exact Hp|]. simpl. rewrite fmap_app. auto.
Qed.

Lemma typing_appends_from (ks : list string) (s : session) :
  wf s → chars_print_themselves s → Forall (λ k, String.length k = 1) ks →
  ∃ outs s',
    run (Press <$> ks) s = Some (outs, s') ∧
    text s' = text s +:+ join ks ∧
    key <$> history s' = (key <$> history s) ++ ks.
Proof.
  intros Hwf Hch Hks. revert s Hwf Hch.
  induction Hks as [|k ks Hk _ IH]; intros s Hwf Hch.
  - exists [], s. simpl. by rewrite append_empty_r, app_nil_r.
  - destruct (press_character s k Hwf Hch Hk)
      as (s1 & Hpress & Ht1 & Hh1 & _ & Hwf1 & Hch1).
    destruct (IH s1 Hwf1 Hch1) as (outs & s' & Hrun & Ht & Hh).
    exists ((text s +:+ k) :: outs), s'.
    rewrite fmap_cons. cbn [run step]. rewrite Hpress. cbn [mbind option_bind].
    rewrite Hrun. cbn [mbind option_bind]. split; [reflexivity|].
    rewrite Ht, Ht1, Hh, Hh1. simpl. rewrite append_assoc, <- app_assoc. auto.
Qed.

(** X10: typing single characters on a new keyboard appends them to the
    text in order and records them, in order, on the history; it does not
    matter which of them had a binding before. *)
Theorem typing_appends (ks : list string) (t : string) :
  Forall (λ k, String.length k = 1) ks →
  ∃ outs s,
    run (Press <$> ks) (VirtualKeyboard.init t []) = Some (outs, s) ∧
    text s = t +:+ join ks ∧
    key <$> history s = ks.
Proof.
  intros Hks.
  destruct (typing_appends_from ks (VirtualKeyboard.init t [])
              (init_wf t) (init_chars t) Hks) as (outs & s & Hrun & Ht & Hh).
  eauto.
Qed.

Lemma typing_appends_witness :
  Forall (λ k, String.length k = 1) ["d"; "x"; "a"; "x"] ∧
  ∃ outs s,
    run (Press <$> ["d"; "x"; "a"; "x"]) (VirtualKeyboard.init "ab" []) = Some (outs, s) ∧
    text s = "ab" +:+ join ["d"; "x"; "a"; "x"] ∧
    key <$> history s = ["d"; "x"; "a"; "x"].
Proof.
  assert (Forall (λ k, String.length k = 1) ["d"; "x"; "a"; "x"]) as H
    by (repeat constructor).
  split; [exact H|].
  apply (typing_appends ["d"; "x"; "a"; "x"] "ab" H).
Defined.

(** X11: the level of a volume command is not bounded: [n] presses of its
    key move it by [n] times the amount, up for a [VolumeUpCommand] and down
    for a [VolumeDownCommand], and leave the text alone. *)
Theorem volume_presses_accumulate (n : nat) (s : session) (k : string) (r : ref)
    (up : bool) (amount level : Z) :
  k ≠ "undo" → k ≠ "redo" →
  get_binding s k = Some r →
  heap s !! r = Some (if up then VolumeUpCommand amount level
                      else VolumeDownCommand amount level) →
  ∃ outs s',
    run (replicate n (Press k)) s = Some (outs, s') ∧
    heap s' !! r = Some (volume_after up amount level n) ∧
    text s' = text s ∧ length outs = n.
Proof.
  intros Hu Hr. revert s.
  assert (∀ m s, get_binding s k = Some r →
            heap s !! r = Some (volume_after up amount level m) →
            ∃ outs s', run (replicate n (Press k)) s = Some (outs, s') ∧
                       heap s' !! r = Some (volume_after up amount level (m + n)) ∧
                       text s' = text s ∧ length outs = n) as Hgen.
  { induction n as [|n IH]; intros m s Hb Hc.
    - exists [], s. rewrite Nat.add_0_r. auto.
    - cbn [replicate run step].
      rewrite (press_key_bound s k r _ Hu Hr Hb Hc). cbn [mbind option_bind].
      edestruct (IH (S m)) as (outs & s' & Hrun & Hc' & Ht & Hl); [| |rewrite Hrun].
      + exact Hb.
      + cbn [heap]. rewrite list_lookup_insert_eq by (eapply lookup_lt_Some; eassumption).
        f_equal. unfold volume_after. destruct up; simpl; f_equal; lia.
      + cbn [mbind option_bind]. eexists _, s'. split; [reflexivity|].
        rewrite Hc', Ht. replace (S m + n) with (m + S n) by lia.
        split; [reflexivity|]. split; [by destruct up | simpl; by rewrite Hl]. }
  intros s Hb Hc. apply (Hgen 0 s Hb). rewrite Hc. f_equal.
  unfold volume_after. destruct up; f_equal; simpl; lia.
Qed.

Lemma volume_presses_accumulate_witness :
  let s := VirtualKeyboard.init "" [] in
  ("ctrl++" ≠ "undo" ∧ "ctrl++" ≠ "redo" ∧
   get_binding s "ctrl++" = Some 4 ∧
   heap s !! 4 = Some (VolumeUpCommand 20 50)) ∧
  ∃ outs s',
    run (replicate 5 (Press "ctrl++")) s = Some (outs, s') ∧
    heap s' !! 4 = Some (volume_after true 20 50 5) ∧
    text s' = text s ∧ length outs = 5.
Proof.
  intros s. split; [repeat split; discriminate|].
  apply (volume_presses_accumulate 5 s "ctrl++" 4 true 20 50);
    [discriminate | discriminate | reflexivity | reflexivity].
Defined.

(** X12: [bind_key] overwrites whatever the key was bound to: after binding
    a key to a newly created command, a press of the key executes that
    command and records it; after binding a key of several characters to
    [None], a press of it is refused and changes nothing. *)
Theorem bind_key_then_press (s : session) (k : string) (c : Command) :
  k ≠ "undo" → k ≠ "redo" →
  let r := length (heap s) in
  let e := Cmd.execute c (text s) in
  VirtualKeyboard.press_key k (bind_key k (Some r) (alloc c s).2) =
    Some (result e,
          Session (text_after e) (heap s ++ [self_after e])
                  (dict_set (key_bindings s) k (Some r))
                  (history s ++ [Entry k r]) []) ∧
  (String.length k ≠ 1 →
   VirtualKeyboard.press_key k (bind_key k None s) =
     Some ("Unknown key: " +:+ k, bind_key k None s)).
Proof.
  intros Hu Hr r e. split.
  - rewrite (press_key_bound _ k r c Hu Hr).
    + simpl. f_equal. f_equal. f_equal.
      rewrite insert_app_r_alt, Nat.sub_diag by reflexivity. reflexivity.
    + rewrite get_binding_bind_key. by rewrite decide_True.
    + simpl. rewrite lookup_app_r, Nat.sub_diag by reflexivity. reflexivity.
  - intros Hlen. apply press_key_unknown; try assumption.
    rewrite get_binding_bind_key. by rewrite decide_True.
Qed.

Lemma bind_key_then_press_witness :
  let s := a_pressed in
  ("a" ≠ "undo" ∧ "a" ≠ "redo" ∧ "ctrl+p" ≠ "undo" ∧ "ctrl+p" ≠ "redo" ∧
   String.length "ctrl+p" ≠ 1) ∧
  VirtualKeyboard.press_key "a" (bind_key "a" (Some 7) (alloc (VolumeUpCommand 5 0) s).2) =
    Some ("volume increased +5% (now: 5%)",
          Session "a" (heap s ++ [VolumeUpCommand 5 5])
                  (dict_set (key_bindings s) "a" (Some 7))
                  (history s ++ [Entry "a" 7]) []) ∧
  VirtualKeyboard.press_key "ctrl+p" (bind_key "ctrl+p" None s) =
    Some ("Unknown key: ctrl+p", bind_key "ctrl+p" None s).
Proof.
  intros s. split; [repeat split; discriminate|]. split.
  - apply (proj1 (bind_key_then_press s "a" (VolumeUpCommand 5 0)
                    ltac:(discriminate) ltac:(discriminate))).
  - apply (proj2 (bind_key_then_press s "ctrl+p" (MediaPlayerCommand false)
                    ltac:(discriminate) ltac:(discriminate))).
    discriminate.
Defined.

(** ** More on loading *)

Lemma comprehension_linked (bindings : dict (option ref)) (tokens : list json)
    (h : list entry) :
  comprehension bindings tokens = Ok h → Forall (linked bindings) h.
Proof.
  revert h. induction tokens as [|token tokens IH]; intros h; cbn [comprehension].
  - intros [= <-]. constructor.
  - destruct (bound_command bindings token) as [found| |] eqn:Hf; try discriminate.
    destruct (comprehension bindings tokens) as [entries| |]; try discriminate.
    intros [= <-]. specialize (IH _ eq_refl).
    destruct found as [e|]; [|assumption]. constructor; [|assumption].
    unfold bound_command in Hf. destruct token; try discriminate.
    unfold linked. destruct (dict_lookup bindings s) as [[r|]|] eqn:Hl; by simplify_eq.
Qed.

Lemma bind_key_None_sound (s : session) (k : string) :
  sound_table s → sound_table (bind_key k None s).
Proof.
  intros (Hnd & Hb & Hinj). split; [by apply dict_set_NoDup|]. simpl. split.
  - intros k0 r. rewrite dict_lookup_set. case_decide; [discriminate | apply Hb].
  - intros k1 k2 r. rewrite !dict_lookup_set.
    repeat case_decide; try discriminate. apply Hinj.
Qed.

Lemma bind_key_new_sound (s : session) (k : string) (c : Command) :
  sound_table s → sound_table (bind_key k (Some (length (heap s))) (alloc c s).2).
Proof.
  intros (Hnd & Hb & Hinj). split; [by apply dict_set_NoDup|]. simpl. split.
  - intros k0 r. rewrite dict_lookup_set, length_app. simpl.
    case_decide; [intros [= <-]; lia|]. intros Hx%Hb. lia.
  - intros k1 k2 r. rewrite !dict_lookup_set.
    repeat case_decide; try congruence.
    + intros [= <-] Hx%Hb. lia.
    + intros Hx%Hb [= <-]. lia.
    + apply Hinj.
Qed.

Lemma load_bindings_sound (items : list (string * json)) (s : session) :
  sound_table s → sound_table (load_bindings items s).2.
Proof.
  revert s. induction items as [|[k cd] items IH]; intros s Hs; [assumption|].
  destruct (load_bindings_cons k cd items s)
    as [[_ ->]|[(_ & c & _ & ->)|(_ & r & -> & _)]]; [| |assumption].
  - by apply IH, bind_key_None_sound.
  - by apply IH, bind_key_new_sound.
Qed.

Lemma M_bind_Ok {A B : Type} (m : M A) (f : A → M B) (s s' : session) (b : B) :
  (m ≫= f) s = (Ok b, s') → ∃ a s1, m s = (Ok a, s1) ∧ f a s1 = (Ok b, s').
Proof.
  unfold mbind, M_bind. destruct (m s) as [[a|e|] s1]; try discriminate. eauto.
Qed.

Lemma res_bind_Ok {A B : Type} (m : res A) (f : A → res B) (b : B) :
  m ≫= f = Ok b → ∃ a, m = Ok a ∧ f a = Ok b.
Proof. destruct m as [a|e|]; try discriminate. eauto. Qed.

Lemma rebuild_Ok (tokens : json) (s s' : session) (h : list entry) :
  rebuild tokens s = (Ok h, s') → s' = s ∧ Forall (linked (key_bindings s)) h.
Proof.
  unfold rebuild. intros [= H <-]. split; [reflexivity|].
  apply res_bind_Ok in H as (l & _ & H). by apply comprehension_linked in H.
Qed.

(** What a load that returns [True] has done. *)
Lemma load_body_Ok (state : json) (s s' : session) (b : bool) :
  load_body state s = (Ok b, s') →
  ∃ t items s2 h u,
    load_bindings items (clear_key_bindings (set_text t s)) = (Ok (), s2) ∧
    s' = Session (text s2) (heap s2) (key_bindings s2) h u ∧
    Forall (linked (key_bindings s2)) h ∧
    Forall (linked (key_bindings s2)) u.
Proof.
  unfold load_body. intros H.
  apply M_bind_Ok in H as (t & s1 & [= _ <-] & H).
  apply M_bind_Ok in H as ([] & s1 & [= <-] & H).
  apply M_bind_Ok in H as ([] & s1 & [= <-] & H).
  apply M_bind_Ok in H as (items & s1 & [= _ <-] & H).
  apply M_bind_Ok in H as ([] & s2 & Hload & H).
  apply M_bind_Ok in H as (th & s1 & [= _ <-] & H).
  apply M_bind_Ok in H as (h & s1 & [-> Hh]%rebuild_Ok & H).
  apply M_bind_Ok in H as ([] & s1 & [= <-] & H).
  apply M_bind_Ok in H as (tu & s1 & [= _ <-] & H).
  apply M_bind_Ok in H as (u & s1 & [-> Hu]%rebuild_Ok & H).
  apply M_bind_Ok in H as ([] & s1 & [= <-] & H).
  injection H as <- <-. exists t, items, s2, h, u. auto.
Qed.

Lemma load_body_sound (state : json) (s s' : session) (b : bool) :
  load_body state s = (Ok b, s') →
  wf s' ∧ injective (key_bindings s') ∧ ∃ more, heap s' = heap s ++ more.
Proof.
  intros Hbody.
  apply load_body_Ok in Hbody as (t & items & s2 & h & u & Hload & -> & Hh & Hu).
  pose proof (load_bindings_sound items (clear_key_bindings (set_text t s))) as Hs.
  pose proof (load_bindings_frame items (clear_key_bindings (set_text t s)))
    as (_ & _ & _ & more & Hheap).
  rewrite Hload in Hs, Hheap. destruct Hs as (Hnd & Hb & Hinj).
  { split; [constructor|]. split; [discriminate|]. intros ???; discriminate. }
  split; [by constructor|]. split; [assumption|]. by exists more.
Qed.

(** *** Typed states are followed *)

Lemma dict_lookup_elem {V : Type} (d : dict V) (k : string) (v : V) :
  dict_lookup d k = Some v → (k, v) ∈ d.
Proof.
  induction d as [|[k0 v0] d IH]; simpl; [discriminate|].
  case_decide as Hk.
  - intros [= <-]. subst k0. left.
  - intros H. right. by apply IH.
Qed.

Lemma res_bind_IllTyped {A B : Type} (m : res A) (f : A → res B) :
  m ≫= f = IllTyped → m = IllTyped ∨ ∃ a, m = Ok a ∧ f a = IllTyped.
Proof. destruct m as [a|e|]; [eauto | discriminate | auto]. Qed.

Lemma M_bind_IllTyped {A B : Type} (m : M A) (f : A → M B) (s : session) :
  ((m ≫= f) s).1 = IllTyped →
  (m s).1 = IllTyped ∨ ∃ a s1, m s = (Ok a, s1) ∧ (f a s1).1 = IllTyped.
Proof.
  unfold mbind, M_bind. destruct (m s) as [[a|e|] s1]; simpl;
    [eauto | discriminate | auto].
Qed.

Lemma argument_typed {A : Type} (kwargs : list (string * json)) (name : string)
    (as_type : json → res A) (default : res A) :
  forallb (λ kv, has_declared_type kv.1 kv.2) kwargs = true →
  (∀ v, has_declared_type name v = true → as_type v ≠ IllTyped) →
  default ≠ IllTyped →
  argument kwargs name as_type default ≠ IllTyped.
Proof.
  intros Hall Htype Hdef. unfold argument.
  destruct (dict_lookup kwargs name) as [v|] eqn:Hv; [|assumption].
  apply Htype. apply dict_lookup_elem, list_elem_of_In in Hv.
  rewrite forallb_forall in Hall. exact (Hall _ Hv).
Qed.

Lemma construct_typed (cls : class) (kwargs : list (string * json)) :
  forallb (λ kv, has_declared_type kv.1 kv.2) kwargs = true →
  construct cls (JObj kwargs) ≠ IllTyped.
Proof.
  intros Hall H. unfold construct in H.
  assert (argument kwargs "char" as_str (Raise TypeError) ≠ IllTyped) as Hchar.
  { apply argument_typed; [assumption| |discriminate]. by intros []. }
  assert (argument kwargs "amount" as_int (Ok 20%Z) ≠ IllTyped) as Hamount.
  { apply argument_typed; [assumption| |discriminate]. by intros []. }
  assert (argument kwargs "current_volume" as_int (Ok 50%Z) ≠ IllTyped) as Hlevel.
  { apply argument_typed; [assumption| |discriminate]. by intros []. }
  assert (argument kwargs "is_playing" as_bool (Ok false) ≠ IllTyped) as Hplay.
  { apply argument_typed; [assumption| |discriminate]. by intros []. }
  clear Hall.
  destruct (forallb _ kwargs); [|discriminate].
  destruct cls.
  - apply res_bind_IllTyped in H as [?|(? & _ & [=])]. contradiction.
  - apply res_bind_IllTyped in H as [?|(? & _ & H)]; [contradiction|].
    apply res_bind_IllTyped in H as [?|(? & _ & [=])]. contradiction.
  - apply res_bind_IllTyped in H as [?|(? & _ & H)]; [contradiction|].
    apply res_bind_IllTyped in H as [?|(? & _ & [=])]. contradiction.
  - apply res_bind_IllTyped in H as [?|(? & _ & [=])]. contradiction.
Qed.

Lemma build_command_typed (command_data : json) :
  binding_typed command_data = true → build_command command_data ≠ IllTyped.
Proof.
  intros Ht H. unfold build_command in H.
  apply res_bind_IllTyped in H as [H|(tag & _ & H)].
  { unfold subscript in H. destruct command_data; try discriminate.
    by destruct (dict_lookup items "class"). }
  apply res_bind_IllTyped in H as [H|(cls & _ & H)].
  { unfold class_names in H. destruct tag; try discriminate.
    by repeat case_decide. }
  apply res_bind_IllTyped in H as [H|(kwargs & Hk & H)].
  { unfold subscript in H. destruct command_data; try discriminate.
    by destruct (dict_lookup items "state"). }
  unfold subscript in Hk. destruct command_data as [| | | | |fields]; try discriminate.
  simpl in Ht. destruct (dict_lookup fields "state") as [v|]; [|discriminate].
  injection Hk as ->. destruct kwargs as [| | | | |kw]; try discriminate.
  by apply (construct_typed cls kw).
Qed.

Lemma load_bindings_typed (items : list (string * json)) (s : session) :
  forallb (λ kv, binding_typed kv.2) items = true →
  (load_bindings items s).1 ≠ IllTyped.
Proof.
  revert s. induction items as [|[k cd] items IH]; intros s Hall; [discriminate|].
  cbn [forallb snd] in Hall. apply andb_prop in Hall as [Hcd Hall].
  destruct (json_null cd) as [->|Hn].
  - rewrite load_bindings_null. by apply IH.
  - destruct (build_command cd) as [c|e|] eqn:Hc.
    + rewrite (load_bindings_command k cd c) by assumption. by apply IH.
    + by rewrite (load_bindings_raise k cd e).
    + by apply build_command_typed in Hc.
Qed.

Lemma comprehension_not_ill_typed (bindings : dict (option ref)) (tokens : list json) :
  comprehension bindings tokens ≠ IllTyped.
Proof.
  induction tokens as [|token tokens IH]; [discriminate|]. cbn [comprehension].
  intros H. apply res_bind_IllTyped in H as [H|(found & _ & H)].
  { unfold bound_command in H. destruct token; try discriminate.
    by destruct (dict_lookup bindings s) as [[?|]|]. }
  apply res_bind_IllTyped in H as [H|(? & _ & [=])]. contradiction.
Qed.

Lemma rebuild_not_ill_typed (tokens : json) (s : session) :
  (rebuild tokens s).1 ≠ IllTyped.
Proof.
  unfold rebuild. simpl. intros H.
  apply res_bind_IllTyped in H as [H|(l & _ & H)].
  - by destruct tokens.
  - by apply comprehension_not_ill_typed in H.
Qed.

Lemma get_not_ill_typed (v : json) (name : string) (default : json) :
  get v name default ≠ IllTyped.
Proof. unfold get. destruct v; try discriminate. by destruct (dict_lookup _ _). Qed.

(** On a typed state the embedding follows the load to its end. *)
Lemma load_body_typed (state : json) (s : session) :
  state_typed state = true → (load_body state s).1 ≠ IllTyped.
Proof.
  intros Ht H. unfold load_body in H.
  apply M_bind_IllTyped in H as [H|(t & s1 & _ & H)].
  { unfold lift in H. simpl in H.
    apply res_bind_IllTyped in H as [H|(v & Hv & H)].
    - unfold subscript in H. destruct state; try discriminate.
      by destruct (dict_lookup items "text").
    - unfold subscript in Hv. destruct state as [| | | | |fields]; try discriminate.
      simpl in Ht. destruct (dict_lookup fields "text") as [v0|]; [|discriminate].
      injection Hv as ->. by destruct v. }
  apply M_bind_IllTyped in H as [[=]|([] & s2 & [= <-] & H)].
  apply M_bind_IllTyped in H as [[=]|([] & s3 & [= <-] & H)].
  apply M_bind_IllTyped in H as [H|(items & s4 & Hitems & H)].
  { unfold lift in H. simpl in H.
    apply res_bind_IllTyped in H as [H|(v & _ & H)].
    - by apply get_not_ill_typed in H.
    - by destruct v. }
  apply M_bind_IllTyped in H as [H|([] & s5 & _ & H)].
  { injection Hitems as Hitems <-. revert H. apply load_bindings_typed.
    destruct state as [| | | | |fields]; try discriminate.
    simpl in Ht, Hitems. apply andb_prop in Ht as [_ Ht].
    destruct (dict_lookup fields "key_bindings") as [v|].
    - destruct v; try discriminate. by injection Hitems as <-.
    - by injection Hitems as <-. }
  apply M_bind_IllTyped in H as [H|(th & s6 & _ & H)].
  { by apply get_not_ill_typed in H. }
  apply M_bind_IllTyped in H as [H|(h & s7 & _ & H)].
  { by apply rebuild_not_ill_typed in H. }
  apply M_bind_IllTyped in H as [[=]|([] & s8 & _ & H)].
  apply M_bind_IllTyped in H as [H|(tu & s9 & _ & H)].
  { by apply get_not_ill_typed in H. }
  apply M_bind_IllTyped in H as [H|(u & s10 & _ & H)].
  { by apply rebuild_not_ill_typed in H. }
  apply M_bind_IllTyped in H as [[=]|([] & s11 & _ & [=])].
Qed.

Lemma load_state_typed (f : file) (s : session) :
  file_typed f = true → (load_state f s).1 ≠ Unmodelled.
Proof.
  intros Ht. unfold load_state. destruct f as [| |state]; try discriminate.
  pose proof (load_body_typed state s Ht) as H.
  destruct (load_body state s) as [[b|e|] s']; simpl in *;
    [discriminate | by destruct (caught e) | contradiction].
Qed.

(** X13: on a state whose values have their declared types (the text a
    string, [char] a string, [amount] and [current_volume] integers,
    [is_playing] a boolean), whatever else it holds and whatever the session
    was, a load that returns [True] leaves a well-formed session: distinct
    keys, every bound command an existing object bound to that key only, and
    every entry of both stacks holding the object its key is bound to.  No
    object is removed.  On such a state the load is followed to its end. *)
Theorem successful_load_is_well_formed (state : json) (s : session) :
  state_typed state = true →
  (load_state (Parsed state) s).1 ≠ Unmodelled ∧
  ∀ s', load_state (Parsed state) s = (Returned true, s') →
        wf s' ∧ injective (key_bindings s') ∧ ∃ more, heap s' = heap s ++ more.
Proof.
  intros Ht. split; [by apply (load_state_typed (Parsed state))|].
  intros s'. unfold load_state. destruct (load_body state s) as [r s1] eqn:Hbody.
  intros [= Hr <-]. destruct r as [b|e|]; simpl in Hr.
  - by apply load_body_sound in Hbody.
  - by destruct (caught e).
  - discriminate.
Qed.

Lemma successful_load_is_well_formed_witness :
  let state := snapshot "aa" ghost_bindings ["a"; "ghost"; "undo"; "a"] ["ghost"] in
  let s' := (load_state (Parsed state) a_pressed).2 in
  (state_typed state = true ∧
   load_state (Parsed state) a_pressed = (Returned true, s')) ∧
  (load_state (Parsed state) a_pressed).1 ≠ Unmodelled ∧
  wf s' ∧ injective (key_bindings s') ∧ ∃ more, heap s' = heap a_pressed ++ more.
Proof.
  intros state s'.
  assert (state_typed state = true) as Ht by reflexivity.
  assert (load_state (Parsed state) a_pressed = (Returned true, s')) as H
    by reflexivity.
  split; [by split|].
  split; [apply (proj1 (successful_load_is_well_formed state a_pressed Ht))|].
  apply (proj2 (successful_load_is_well_formed state a_pressed Ht) s' H).
Defined.

(** X14: a file that is missing or is not JSON makes [load_state] return
    [False]; a file whose JSON is not an object makes it raise a [TypeError]
    that it does not catch.  In all three cases the text, the bindings and
    the stacks are as they were. *)
Theorem unreadable_state_changes_nothing (s : session) :
  load_state Missing s = (Returned false, s) ∧
  load_state Malformed s = (Returned false, s) ∧
  ∀ state, (∀ fields, state ≠ JObj fields) →
           load_state (Parsed state) s = (Uncaught TypeError, s).
Proof.
  split; [reflexivity|]. split; [reflexivity|].
  intros state Hs. destruct state; try reflexivity. by destruct (Hs items).
Qed.

Lemma unreadable_state_changes_nothing_witness :
  (∀ fields, JArr [JStr "a"] ≠ JObj fields) ∧
  load_state (Parsed (JArr [JStr "a"])) a_pressed = (Uncaught TypeError, a_pressed).
Proof.
  assert (∀ fields, JArr [JStr "a"] ≠ JObj fields) as H by discriminate.
  split; [exact H|].
  apply (proj2 (proj2 (unreadable_state_changes_nothing a_pressed)) _ H).
Defined.

(** X15: when [key_bindings] is present in the state but is not an object
    ([null], a list, a string, a number), [load_state] returns [False] after
    it has replaced the text and emptied the table; the stacks are as they
    were. *)
Theorem bindings_not_an_object (fields : list (string * json)) (t : string)
    (v : json) (s : session) :
  dict_lookup fields "text" = Some (JStr t) →
  dict_lookup fields "key_bindings" = Some v →
  (∀ items, v ≠ JObj items) →
  load_state (Parsed (JObj fields)) s =
  (Returned false, Session t (heap s) [] (history s) (undo_stack s)).
Proof.
  intros Ht Hk Hv. unfold load_state, load_body, subscript, get.
  unfold mbind at 1, M_bind. unfold lift at 1. rewrite Ht.
  cbn [mbind res_bind as_str]. unfold mbind, M_bind, update, lift. rewrite Hk.
  destruct v; try reflexivity. by destruct (Hv items).
Qed.

Lemma bindings_not_an_object_witness :
  let fields := [("text", JStr "hi"); ("key_bindings", JNull)] in
  (dict_lookup fields "text" = Some (JStr "hi") ∧
   dict_lookup fields "key_bindings" = Some JNull ∧
   ∀ items, JNull ≠ JObj items) ∧
  load_state (Parsed (JObj fields)) a_pressed =
  (Returned false,
   Session "hi" (heap a_pressed) [] (history a_pressed) (undo_stack a_pressed)).
Proof.
  intros fields.
  assert (∀ items, JNull ≠ JObj items) as H by discriminate.
  split; [split; [reflexivity | split; [reflexivity | exact H]]|].
  apply (bindings_not_an_object fields "hi" JNull a_pressed eq_refl eq_refl H).
Defined.

(** X16: [key_bindings], [history] and [undo_stack] are optional: a state
    that has a text and none of them loads, returns [True], and leaves an
    empty table and empty stacks. *)
Theorem optional_fields_default (fields : list (string * json)) (t : string)
    (s : session) :
  dict_lookup fields "text" = Some (JStr t) →
  dict_lookup fields "key_bindings" = None →
  dict_lookup fields "history" = None →
  dict_lookup fields "undo_stack" = None →
  load_state (Parsed (JObj fields)) s = (Returned true, Session t (heap s) [] [] []).
Proof.
  intros Ht Hk Hh Hu. unfold load_state, load_body, subscript, get.
  unfold mbind at 1, M_bind. unfold lift at 1. rewrite Ht.
  cbn [mbind res_bind as_str]. unfold mbind, M_bind, update, lift.
  rewrite Hk, Hh, Hu. reflexivity.
Qed.

Lemma optional_fields_default_witness :
  let fields := [("text", JStr "hi")] in
  (dict_lookup fields "text" = Some (JStr "hi") ∧
   dict_lookup fields "key_bindings" = None ∧
   dict_lookup fields "history" = None ∧
   dict_lookup fields "undo_stack" = None) ∧
  load_state (Parsed (JObj fields)) a_pressed =
  (Returned true, Session "hi" (heap a_pressed) [] [] []).
Proof.
  intros fields. split; [repeat split|].
  apply (optional_fields_default fields "hi" a_pressed); reflexivity.
Defined.

(** X17: a binding of a known class whose field map has a field the
    constructor does not take, or lacks [char] for a [PrintCharCommand],
    makes [load_state] raise a [TypeError] that it does not catch; the text
    is already replaced and the bindings before it are installed. *)
Theorem mismatched_fields_raise_type_error (t : string)
    (before after : list (string * json)) (k : string) (command_data : json)
    (hs us : list string) (s : session) :
  Forall loadable before.*2 → mismatched_fields command_data →
  load_state (Parsed (snapshot t (before ++ (k, command_data) :: after) hs us)) s =
  (Uncaught TypeError, (load_bindings before (clear_key_bindings (set_text t s))).2).
Proof.
  intros Hb [Hn He]%build_command_mismatched_fields.
  by rewrite (load_state_stops t before after k command_data TypeError).
Qed.

Lemma mismatched_fields_raise_type_error_witness :
  let extra := JObj [("class", JStr "MediaPlayerCommand");
                     ("state", JObj [("is_playing", JBool true); ("volume", JInt 3)])] in
  let before := [("a", KeyboardMemento.command_data (PrintCharCommand "a"))] in
  (Forall loadable before.*2 ∧ mismatched_fields extra) ∧
  load_state (Parsed (snapshot "hi" (before ++ ("p", extra) :: []) ["a"] [])) a_pressed =
  (Uncaught TypeError,
   (load_bindings before (clear_key_bindings (set_text "hi" a_pressed))).2).
Proof.
  intros extra before.
  assert (Forall loadable before.*2) as Hb.
  { apply Forall_cons. split; [right; eexists; reflexivity | constructor]. }
  assert (mismatched_fields extra) as Hm.
  { eexists _, _, CMediaPlayer, _. split; [reflexivity|]. split; [reflexivity|].
    split; [reflexivity|]. split; [reflexivity|]. left. exists "volume".
    split; [compute_done | compute_done]. }
  split; [by split|].
  apply (mismatched_fields_raise_type_error "hi" before [] "p" extra ["a"] []
           a_pressed Hb Hm).
Defined.

(** ** More on saving and loading again *)

Lemma dict_set_fresh {V : Type} (d : dict V) (k : string) (v : V) :
  k ∉ d.*1 → dict_set d k v = d ++ [(k, v)].
Proof.
  induction d as [|[k0 v0] d IH]; [reflexivity|].
  rewrite fmap_cons. intros [Hne Hk]%not_elem_of_cons. cbn [fst] in Hne.
  simpl. rewrite decide_False by congruence. by rewrite IH.
Qed.

Lemma binding_data_mono (heap more : list Command) (b : string * option ref)
    (kv : string * json) :
  KeyboardMemento.binding_data heap b = Some kv →
  KeyboardMemento.binding_data (heap ++ more) b = Some kv.
Proof.
  destruct b as [k [r|]]; [|done]. unfold KeyboardMemento.binding_data.
  destruct (heap !! r) as [c|] eqn:Hr; [|discriminate].
  by rewrite (lookup_app_l_Some _ _ _ _ Hr).
Qed.

Lemma filter_all {A : Type} (p : A → bool) (l : list A) :
  Forall (λ x, p x = true) l → List.filter p l = l.
Proof. induction 1 as [|x l Hx _ IH]; simpl; [done|]. by rewrite Hx, IH. Qed.

(** What [from_keyboard] writes for a binding is [null] or the data of a
    command. *)
Lemma saved_items (heap : list Command) (bindings : dict (option ref))
    (items : list (string * json)) :
  Forall2 (λ b kv, KeyboardMemento.binding_data heap b = Some kv) bindings items →
  Forall (λ kv, kv.2 = JNull ∨ ∃ c, kv.2 = KeyboardMemento.command_data c) items.
Proof.
  induction 1 as [|b kv bindings items H _ IH]; constructor; [|assumption].
  apply binding_data_Some in H as [_ H]. destruct (b.2) as [r|]; simpl in H.
  - destruct H as (c & _ & ->). eauto.
  - by left.
Qed.

(** Loading saved bindings rebuilds a table that saves to the same
    bindings. *)
Lemma load_bindings_resaves (items acc : list (string * json)) (s1 : session) :
  NoDup ((key_bindings s1).*1 ++ items.*1) →
  Forall (λ kv, kv.2 = JNull ∨ ∃ c, kv.2 = KeyboardMemento.command_data c) items →
  Forall2 (λ b kv, KeyboardMemento.binding_data (heap s1) b = Some kv)
          (key_bindings s1) acc →
  ∃ s2,
    load_bindings items s1 = (Ok (), s2) ∧
    Forall2 (λ b kv, KeyboardMemento.binding_data (heap s2) b = Some kv)
            (key_bindings s2) (acc ++ items).
Proof.
  revert acc s1. induction items as [|[k cd] items IH]; intros acc s1 Hnd Hitems Hacc.
  - exists s1. by rewrite app_nil_r.
  - apply Forall_cons in Hitems as [Hcd Hitems]. cbn [snd] in Hcd.
    rewrite fmap_cons in Hnd. cbn [fst] in Hnd.
    assert (k ∉ (key_bindings s1).*1) as Hk.
    { apply NoDup_app in Hnd as (_ & Hd & _). intros Hin.
      apply (Hd k Hin). left. }
    assert (∀ v, NoDup ((dict_set (key_bindings s1) k v).*1 ++ items.*1)) as Hnd'.
    { intros v. rewrite dict_set_fresh, fmap_app, <- app_assoc by assumption.
      exact Hnd. }
    rewrite (cons_middle (k, cd) acc items), app_assoc.
    destruct Hcd as [->|[c ->]].
    + rewrite load_bindings_null. apply IH; [apply Hnd' | assumption|].
      simpl. rewrite dict_set_fresh by assumption.
      apply Forall2_app; [assumption|]. by repeat constructor.
    + rewrite (load_bindings_command k _ c);
        [|discriminate | apply build_command_data].
      apply IH; [apply Hnd' | assumption|].
      simpl. rewrite dict_set_fresh by assumption.
      apply Forall2_app.
      * eapply Forall2_impl; [exact Hacc|]. intros b kv. apply binding_data_mono.
      * repeat constructor. unfold KeyboardMemento.binding_data.
        rewrite lookup_app_r, Nat.sub_diag by reflexivity. reflexivity.
Qed.

Lemma saved_history_keys (s : session) (items : list (string * json))
    (stack : list entry) :
  Forall2 (λ b kv, KeyboardMemento.binding_data (heap s) b = Some kv)
          (key_bindings s) items →
  Forall (linked (key_bindings s)) stack →
  Forall (λ k, has_command items k = true) (key <$> stack).
Proof.
  intros Hsaved Hstack. apply Forall_fmap. eapply Forall_impl; [exact Hstack|].
  intros e He. unfold compose, has_command.
  pose proof (saved_lookup _ _ _ (key e) Hsaved) as H. rewrite He in H.
  destruct H as (data & -> & c & _ & ->). reflexivity.
Qed.

(** X18: what [from_keyboard] saves of a well-formed session is a snapshot
    that loads: its bindings have distinct keys, each is [null] or builds a
    command, and every key listed for a stack is bound to a command in
    it. *)
Theorem saved_snapshot_is_valid (s : session) :
  wf s →
  ∃ items,
    KeyboardMemento.from_keyboard s =
      Some (snapshot (text s) items (key <$> history s) (key <$> undo_stack s)) ∧
    items.*1 = (key_bindings s).*1 ∧
    NoDup items.*1 ∧ Forall loadable items.*2 ∧
    Forall (λ k, has_command items k = true) (key <$> history s) ∧
    Forall (λ k, has_command items k = true) (key <$> undo_stack s).
Proof.
  intros Hwf. destruct (from_keyboard_wf s Hwf) as (items & Hsave & Hsaved).
  destruct (saved_keys _ _ _ Hsaved) as [Hkeys Hload].
  exists items. split; [assumption|]. split; [assumption|].
  split; [rewrite Hkeys; apply Hwf|]. split; [assumption|].
  split; eapply saved_history_keys; try eassumption; apply Hwf.
Qed.

Lemma saved_snapshot_is_valid_witness :
  wf a_undone ∧
  ∃ items,
    KeyboardMemento.from_keyboard a_undone =
      Some (snapshot (text a_undone) items (key <$> history a_undone)
                     (key <$> undo_stack a_undone)) ∧
    items.*1 = (key_bindings a_undone).*1 ∧
    NoDup items.*1 ∧ Forall loadable items.*2 ∧
    Forall (λ k, has_command items k = true) (key <$> history a_undone) ∧
    Forall (λ k, has_command items k = true) (key <$> undo_stack a_undone).
Proof.
  split; [apply a_undone_wf|].
  apply (saved_snapshot_is_valid a_undone a_undone_wf).
Defined.

Lemma resave_snapshot (s target : session) (items : list (string * json)) :
  wf s →
  Forall2 (λ b kv, KeyboardMemento.binding_data (heap s) b = Some kv)
          (key_bindings s) items →
  ∃ s',
    load_state
      (Parsed (snapshot (text s) items (key <$> history s) (key <$> undo_stack s)))
      target = (Returned true, s') ∧
    KeyboardMemento.from_keyboard s' =
      Some (snapshot (text s) items (key <$> history s) (key <$> undo_stack s)) ∧
    text s' = text s ∧
    (key_bindings s').*1 = (key_bindings s).*1 ∧
    key <$> history s' = key <$> history s ∧
    key <$> undo_stack s' = key <$> undo_stack s.
Proof.
  intros Hwf Hsaved.
  destruct (saved_keys _ _ _ Hsaved) as [Hkeys Hloadable].
  assert (NoDup items.*1) as Hnd by (rewrite Hkeys; apply Hwf).
  destruct (load_bindings_resaves items [] (clear_key_bindings (set_text (text s) target)))
    as (s2 & Hload & Hre).
  { exact Hnd. } { eapply saved_items; eassumption. } { constructor. }
  pose proof (load_bindings_frame items (clear_key_bindings (set_text (text s) target)))
    as (Htext & _). rewrite Hload in Htext. simpl in Htext.
  pose proof (loaded_entry_for items
                (clear_key_bindings (set_text (text s) target)) s2 Hnd eq_refl Hload)
    as Hp.
  assert (key <$> omap (entry_for (key_bindings s2)) (key <$> history s)
          = key <$> history s) as Hh.
  { rewrite (omap_entry_for_keys _ (has_command items)) by assumption.
    apply filter_all. apply (saved_history_keys s items _ Hsaved), Hwf. }
  assert (key <$> omap (entry_for (key_bindings s2)) (key <$> undo_stack s)
          = key <$> undo_stack s) as Hu.
  { rewrite (omap_entry_for_keys _ (has_command items)) by assumption.
    apply filter_all. apply (saved_history_keys s items _ Hsaved), Hwf. }
  eexists. split; [by rewrite load_state_snapshot, Hload|].
  split; [|split; [exact Htext|split; [|split; [exact Hh | exact Hu]]]].
  - unfold KeyboardMemento.from_keyboard. cbn [heap key_bindings text history undo_stack].
    apply mapM_Some in Hre. simpl in Hre. rewrite Hre. cbn [mbind option_bind].
    unfold snapshot. rewrite Htext.
    rewrite !(list_fmap_compose key JStr), Hh, Hu. reflexivity.
  - cbn [key_bindings]. destruct (saved_keys _ _ _ Hre) as [<- _]. exact Hkeys.
Qed.

(** X19: saving a well-formed session, loading what was saved into any
    session, and saving again writes the same state: the text, every
    binding with its class and fields, in the same order, and the keys of
    both stacks all come back. *)
Theorem save_load_save (s target : session) :
  wf s →
  ∃ state s',
    KeyboardMemento.from_keyboard s = Some state ∧
    load_state (Parsed state) target = (Returned true, s') ∧
    KeyboardMemento.from_keyboard s' = Some state ∧
    text s' = text s ∧
    (key_bindings s').*1 = (key_bindings s).*1 ∧
    key <$> history s' = key <$> history s ∧
    key <$> undo_stack s' = key <$> undo_stack s.
Proof.
  intros Hwf. destruct (from_keyboard_wf s Hwf) as (items & Hsave & Hsaved).
  destruct (resave_snapshot s target items Hwf Hsaved)
    as (s' & Hload & Hagain & Htext & Hkeys & Hh & Hu).
  exists (snapshot (text s) items (key <$> history s) (key <$> undo_stack s)), s'.
  repeat split; assumption.
Qed.

Lemma save_load_save_witness :
  wf a_undone ∧
  ∃ state s',
    KeyboardMemento.from_keyboard a_undone = Some state ∧
    load_state (Parsed state) a_pressed = (Returned true, s') ∧
    KeyboardMemento.from_keyboard s' = Some state ∧
    text s' = text a_undone ∧
    (key_bindings s').*1 = (key_bindings a_undone).*1 ∧
    key <$> history s' = key <$> history a_undone ∧
    key <$> undo_stack s' = key <$> undo_stack a_undone.
Proof.
  split; [apply a_undone_wf|].
  apply (save_load_save a_undone a_pressed a_undone_wf).
Defined.

(** ** Sessions that behave alike *)

Lemma resolve_Some (s : session) (k : string) (c : Command) :
  resolve s k = Some c ↔ ∃ r, get_binding s k = Some r ∧ heap s !! r = Some c.
Proof.
  unfold resolve. destruct (get_binding s k) as [r|]; simpl.
  - split; [eauto | by intros (r' & [= <-] & ?)].
  - split; [discriminate | by intros (r' & [=] & _)].
Qed.

Lemma resolve_None (s : session) (k : string) :
  wf s → resolve s k = None → get_binding s k = None.
Proof.
  intros Hwf. unfold resolve. destruct (get_binding s k) as [r|] eqn:Hb; [|done].
  destruct (wf_deref s k r Hwf Hb) as [c Hc]. cbn [mbind option_bind].
  rewrite Hc. discriminate.
Qed.

(** Resolving after the object of one key has been replaced. *)
Lemma resolve_insert (s : session) (k k0 : string) (r : ref) (c c1 : Command)
    (t : string) (h u : list entry) :
  solid s → get_binding s k = Some r → heap s !! r = Some c →
  resolve (Session t (<[r := c1]> (heap s)) (key_bindings s) h u) k0 =
  if decide (k0 = k) then Some c1 else resolve s k0.
Proof.
  intros [Hwf Hinj] Hb Hc. unfold resolve, get_binding. cbn [key_bindings heap].
  fold (get_binding s k0).
  destruct (decide (k0 = k)) as [->|Hne].
  - rewrite Hb. simpl. apply list_lookup_insert_eq. eapply lookup_lt_Some; eassumption.
  - destruct (get_binding s k0) as [r0|] eqn:Hb0; [|reflexivity]. simpl.
    apply list_lookup_insert_ne. intros <-. apply Hne.
    apply get_binding_Some in Hb, Hb0. by apply (Hinj k0 k r).
Qed.

(** Resolving after a new object has been bound to an unbound key. *)
Lemma resolve_autobind (s : session) (k k0 : string) (c : Command)
    (t : string) (h u : list entry) :
  wf s →
  resolve (Session t (heap s ++ [c])
                   (dict_set (key_bindings s) k (Some (length (heap s)))) h u) k0 =
  if decide (k0 = k) then Some c else resolve s k0.
Proof.
  intros Hwf. unfold resolve, get_binding. cbn [key_bindings heap].
  rewrite dict_lookup_set. fold (get_binding s k0).
  destruct (decide (k0 = k)) as [->|Hne].
  - rewrite decide_True by reflexivity. simpl.
    rewrite lookup_app_r, Nat.sub_diag by reflexivity. reflexivity.
  - rewrite decide_False by congruence. fold (get_binding s k0).
    destruct (get_binding s k0) as [r0|] eqn:Hb0; [|reflexivity]. simpl.
    apply lookup_app_l. apply get_binding_Some in Hb0. by apply (wf_bound s Hwf k0).
Qed.

Lemma fmap_key_snoc (rest : list entry) (top : entry) (l : list entry) :
  key <$> rest ++ [top] = key <$> l →
  ∃ rest' top', l = rest' ++ [top'] ∧ key <$> rest = key <$> rest' ∧ key top = key top'.
Proof.
  intros H. destruct l as [|top' rest' _] using rev_ind.
  - rewrite fmap_app in H. by destruct (key <$> rest).
  - exists rest', top'. split; [reflexivity|].
    rewrite !fmap_app in H. simpl in H. by apply app_inj_tail in H.
Qed.

Lemma fmap_key_nil (l : list entry) : key <$> [] = key <$> l → l = [].
Proof. by destruct l. Qed.

(** The object at the top of a stack of a well-formed session. *)
Lemma top_command (s : session) (rest : list entry) (top : entry) :
  wf s → Forall (linked (key_bindings s)) (rest ++ [top]) →
  get_binding s (key top) = Some (command top) ∧
  ∃ c, heap s !! command top = Some c.
Proof.
  intros Hwf [_ H]%Forall_app. apply Forall_inv in H.
  apply get_binding_Some in H. split; [assumption|]. by eapply wf_deref.
Qed.

Lemma alike_undo (s s' : session) :
  solid s → solid s' → alike s s' →
  ∃ out s1 s1',
    VirtualKeyboard.undo s = Some (out, s1) ∧
    VirtualKeyboard.undo s' = Some (out, s1') ∧ alike s1 s1'.
Proof.
  intros Hs Hs' [Ht Hres Hh Hu].
  destruct (history s) as [|top rest _] eqn:Hhs using rev_ind.
  - apply fmap_key_nil in Hh.
    eexists _, _, _. split; [by apply undo_empty|]. split; [by apply undo_empty|].
    constructor; try assumption. by rewrite Hhs, Hh.
  - destruct (fmap_key_snoc _ _ _ Hh) as (rest' & top' & Hhs' & Hrest & Htop).
    destruct (top_command s rest top (solid_wf _ Hs)) as [Hb [c Hc]];
      [rewrite <- Hhs; apply Hs|].
    destruct (top_command s' rest' top' (solid_wf _ Hs')) as [Hb' [c' Hc']];
      [rewrite <- Hhs'; apply Hs'|].
    assert (c' = c) as ->.
    { assert (resolve s (key top) = Some c) as H1 by (apply resolve_Some; eauto).
      assert (resolve s' (key top') = Some c') as H2 by (apply resolve_Some; eauto).
      rewrite Hres, Htop in H1. congruence. }
    eexists _, _, _. split; [by eapply undo_top|].
    split; [rewrite Ht; by eapply undo_top|].
    constructor; cbn [text key_bindings history undo_stack].
    + by rewrite Ht.
    + intros k0.
      rewrite (resolve_insert s (key top) k0 _ c) by assumption.
      rewrite (resolve_insert s' (key top') k0 _ c) by assumption.
      rewrite Htop. case_decide; [first [reflexivity | by rewrite Ht] | apply Hres].
    + exact Hrest.
    + rewrite !fmap_app, Hu. simpl. by rewrite Htop.
Qed.

Lemma alike_redo (s s' : session) :
  solid s → solid s' → alike s s' →
  ∃ out s1 s1',
    VirtualKeyboard.redo s = Some (out, s1) ∧
    VirtualKeyboard.redo s' = Some (out, s1') ∧ alike s1 s1'.
Proof.
  intros Hs Hs' [Ht Hres Hh Hu].
  destruct (undo_stack s) as [|top rest _] eqn:Hus using rev_ind.
  - apply fmap_key_nil in Hu.
    eexists _, _, _. split; [by apply redo_empty|]. split; [by apply redo_empty|].
    constructor; try assumption. by rewrite Hus, Hu.
  - destruct (fmap_key_snoc _ _ _ Hu) as (rest' & top' & Hus' & Hrest & Htop).
    destruct (top_command s rest top (solid_wf _ Hs)) as [Hb [c Hc]];
      [rewrite <- Hus; apply Hs|].
    destruct (top_command s' rest' top' (solid_wf _ Hs')) as [Hb' [c' Hc']];
      [rewrite <- Hus'; apply Hs'|].
    assert (c' = c) as ->.
    { assert (resolve s (key top) = Some c) as H1 by (apply resolve_Some; eauto).
      assert (resolve s' (key top') = Some c') as H2 by (apply resolve_Some; eauto).
      rewrite Hres, Htop in H1. congruence. }
    eexists _, _, _. split; [by eapply redo_top|].
    split; [rewrite Ht; by eapply redo_top|].
    constructor; cbn [text key_bindings history undo_stack].
    + by rewrite Ht.
    + intros k0.
      rewrite (resolve_insert s (key top) k0 _ c) by assumption.
      rewrite (resolve_insert s' (key top') k0 _ c) by assumption.
      rewrite Htop. case_decide; [first [reflexivity | by rewrite Ht] | apply Hres].
    + rewrite !fmap_app, Hh. simpl. by rewrite Htop.
    + exact Hrest.
Qed.

Lemma alike_press_key (s s' : session) (k : string) :
  solid s → solid s' → alike s s' →
  ∃ out s1 s1',
    VirtualKeyboard.press_key k s = Some (out, s1) ∧
    VirtualKeyboard.press_key k s' = Some (out, s1') ∧ alike s1 s1'.
Proof.
  intros Hs Hs' Ha.
  destruct (decide (k = "undo")) as [->|Hu]; [by apply alike_undo|].
  destruct (decide (k = "redo")) as [->|Hr]; [by apply alike_redo|].
  destruct Ha as [Ht Hres Hh Hus].
  destruct (resolve s k) as [c|] eqn:Hk.
  - pose proof Hk as Hk'. rewrite Hres in Hk'.
    apply resolve_Some in Hk as (r & Hb & Hc), Hk' as (r' & Hb' & Hc').
    eexists _, _, _. split; [by eapply press_key_bound|].
    split; [rewrite Ht; by eapply press_key_bound|].
    constructor; cbn [text key_bindings history undo_stack].
    + by rewrite Ht.
    + intros k0.
      rewrite (resolve_insert s k k0 _ c) by assumption.
      rewrite (resolve_insert s' k k0 _ c) by assumption.
      case_decide; [first [reflexivity | by rewrite Ht] | apply Hres].
    + rewrite !fmap_app, Hh. reflexivity.
    + reflexivity.
  - pose proof Hk as Hk'. rewrite Hres in Hk'.
    apply resolve_None in Hk; [|apply Hs]. apply resolve_None in Hk'; [|apply Hs'].
    destruct (decide (String.length k = 1)) as [Hlen|Hlen].
    + eexists _, _, _. split; [by apply press_key_autobind|].
      split; [rewrite Ht; by apply press_key_autobind|].
      constructor; cbn [text key_bindings history undo_stack].
      * by rewrite Ht.
      * intros k0.
        rewrite (resolve_autobind s k k0) by apply Hs.
        rewrite (resolve_autobind s' k k0) by apply Hs'.
        case_decide; [first [reflexivity | by rewrite Ht] | apply Hres].
      * rewrite !fmap_app, Hh. reflexivity.
      * reflexivity.
    + eexists _, _, _. split; [by apply press_key_unknown|].
      split; [by apply press_key_unknown|]. by constructor.
Qed.

Lemma alike_run (ops : list op) (s s' : session) :
  solid s → solid s' → alike s s' →
  ∃ outs u u',
    run ops s = Some (outs, u) ∧ run ops s' = Some (outs, u') ∧
    alike u u' ∧ solid u ∧ solid u'.
Proof.
  revert s s'. induction ops as [|o ops IH]; intros s s' Hs Hs' Ha.
  - exists [], s, s'. auto.
  - assert (∃ out s1 s1', step o s = Some (out, s1) ∧
              step o s' = Some (out, s1') ∧ alike s1 s1')
      as (out & s1 & s1' & H1 & H1' & Ha1).
    { destruct o; simpl; auto using alike_press_key, alike_undo, alike_redo. }
    assert (solid s1 ∧ solid s1') as [Hs1 Hs1'].
    { destruct (step_transition s o (solid_wf _ Hs)) as (? & ? & E & T).
      destruct (step_transition s' o (solid_wf _ Hs')) as (? & ? & E' & T').
      rewrite H1 in E. rewrite H1' in E'. simplify_eq.
      split; [exact (transition_solid _ _ _ Hs T) | exact (transition_solid _ _ _ Hs' T')]. }
    destruct (IH s1 s1' Hs1 Hs1' Ha1) as (outs & u & u' & Hr & Hr' & Hau & Hu & Hu').
    exists (out :: outs), u, u'. cbn [run]. rewrite H1, H1'. cbn [mbind option_bind].
    rewrite Hr, Hr'. auto.
Qed.

(** A loaded copy of a saved session is like the session. *)
Lemma reload_alike (s target s2 : session) (items : list (string * json)) :
  wf s →
  Forall2 (λ b kv, KeyboardMemento.binding_data (heap s) b = Some kv)
          (key_bindings s) items →
  load_bindings items (clear_key_bindings (set_text (text s) target)) = (Ok (), s2) →
  alike s (Session (text s2) (heap s2) (key_bindings s2)
                   (omap (entry_for (key_bindings s2)) (key <$> history s))
                   (omap (entry_for (key_bindings s2)) (key <$> undo_stack s))).
Proof.
  intros Hwf Hsaved Hload.
  destruct (saved_keys _ _ _ Hsaved) as [Hkeys _].
  assert (NoDup items.*1) as Hnd by (rewrite Hkeys; apply Hwf).
  pose proof (load_bindings_frame items (clear_key_bindings (set_text (text s) target)))
    as (Htext & _). rewrite Hload in Htext. simpl in Htext.
  pose proof (loaded_entry_for items
                (clear_key_bindings (set_text (text s) target)) s2 Hnd eq_refl Hload)
    as Hp.
  constructor; cbn [text history undo_stack].
  - by symmetry.
  - intros k. pose proof (saved_lookup _ _ _ k Hsaved) as Hitem.
    pose proof (load_bindings_table items _ s2 Hnd Hload k) as Htab.
    unfold resolve at 1, get_binding.
    destruct (dict_lookup (key_bindings s) k) as [[r|]|] eqn:Hk.
    + destruct (wf_deref s k r Hwf) as [c Hc]; [by apply get_binding_Some|].
      destruct (reloaded_binding s _ s2 items k r c Hwf Hsaved Hload Hk Hc)
        as (r' & Hk' & Hr').
      simpl. rewrite Hc. symmetry. apply resolve_Some. exists r'.
      split; [by apply get_binding_Some | exact Hr'].
    + destruct Hitem as (data & Hdata & ->). rewrite Hdata in Htab.
      destruct Htab as [[_ Hk']|[Hn _]]; [|done].
      simpl. unfold resolve, get_binding. cbn [key_bindings]. by rewrite Hk'.
    + rewrite Hitem in Htab. simpl in Htab.
      simpl. unfold resolve, get_binding. cbn [key_bindings]. by rewrite Htab.
  - rewrite (omap_entry_for_keys _ (has_command items)) by assumption.
    symmetry. apply filter_all. apply (saved_history_keys s items _ Hsaved), Hwf.
  - rewrite (omap_entry_for_keys _ (has_command items)) by assumption.
    symmetry. apply filter_all. apply (saved_history_keys s items _ Hsaved), Hwf.
Qed.

(** X20: a session saved and loaded again cannot be told from the one that
    was saved.  For a well-formed session in which no object is bound to two
    keys, and any further calls of [press_key], [undo] and [redo], the
    loaded session returns the same strings, call by call, and ends with the
    same text. *)
Theorem reloaded_session_behaves_alike (s target : session) (ops : list op) :
  wf s → injective (key_bindings s) →
  ∃ state s' outs u u',
    KeyboardMemento.from_keyboard s = Some state ∧
    load_state (Parsed state) target = (Returned true, s') ∧
    run ops s = Some (outs, u) ∧
    run ops s' = Some (outs, u') ∧
    text u' = text u.
Proof.
  intros Hwf Hinj. destruct (from_keyboard_wf s Hwf) as (items & Hsave & Hsaved).
  destruct (saved_keys _ _ _ Hsaved) as [_ Hloadable].
  apply (load_bindings_Ok items (clear_key_bindings (set_text (text s) target)))
    in Hloadable as [s2 Hload].
  pose proof (load_state_snapshot (text s) items (key <$> history s)
                (key <$> undo_stack s) target) as Hstate.
  pose proof (load_body_snapshot (text s) items (key <$> history s)
                (key <$> undo_stack s) target) as Hbody.
  rewrite Hload in Hstate, Hbody.
  destruct (load_body_sound _ _ _ _ Hbody) as (Hwf' & Hinj' & _).
  destruct (alike_run ops s _ (Solid _ Hwf Hinj) (Solid _ Hwf' Hinj')
              (reload_alike s target s2 items Hwf Hsaved Hload))
    as (outs & u & u' & Hr & Hr' & [Ht _ _ _] & _).
  eexists _, _, outs, u, u'. repeat split; eauto.
Qed.

Lemma reloaded_session_behaves_alike_witness :
  let ops := [Redo; Press "ctrl++"; Press "q"; Undo; Undo; Press "a"; Redo] in
  (wf a_undone ∧ injective (key_bindings a_undone)) ∧
  ∃ state s' outs u u',
    KeyboardMemento.from_keyboard a_undone = Some state ∧
    load_state (Parsed state) a_pressed = (Returned true, s') ∧
    run ops a_undone = Some (outs, u) ∧
    run ops s' = Some (outs, u') ∧
    text u' = text u.
Proof.
  intros ops.
  assert (injective (key_bindings a_undone)) as Hinj.
  { intros k1 k2 r. simpl. repeat case_decide; intros; simplify_eq; reflexivity. }
  split; [split; [apply a_undone_wf | exact Hinj]|].
  apply (reloaded_session_behaves_alike a_undone a_pressed ops a_undone_wf Hinj).
Defined.

(** ** Loading into a new keyboard *)

Lemma sound_empty_wf (s : session) :
  sound_table s → Forall (linked (key_bindings s)) (history s) →
  Forall (linked (key_bindings s)) (undo_stack s) → wf s.
Proof. intros (? & ? & ?) ? ?. by constructor. Qed.

Lemma load_body_keeps_wf (state : json) (s : session) :
  wf s → history s = [] → undo_stack s = [] →
  wf (load_body state s).2.
Proof.
  intros Hwf Hh Hu.
  assert (∀ t, sound_table (clear_key_bindings (set_text t s))) as Hclear.
  { intros t. split; [constructor|]. split; [discriminate|]. intros ???; discriminate. }
  unfold load_body, mbind, M_bind, lift, update, rebuild.
  destruct (res_bind _ _ as_str (subscript state "text")) as [t| |].
  2,3: exact Hwf.
  destruct (res_bind _ _ items_of (get state "key_bindings" (JObj []))) as [items| |].
  2,3: (apply sound_empty_wf; simpl; [apply (Hclear t) | rewrite Hh | rewrite Hu];
        constructor).
  pose proof (load_bindings_sound items _ (Hclear t)) as Hs2.
  pose proof (load_bindings_frame items (clear_key_bindings (set_text t s)))
    as (_ & Hh2 & Hu2 & _).
  destruct (load_bindings items _) as [r s2]. simpl in Hs2, Hh2, Hu2.
  rewrite Hh in Hh2. rewrite Hu in Hu2.
  assert (wf s2) as Hwf2.
  { apply sound_empty_wf; [assumption | rewrite Hh2 | rewrite Hu2]; constructor. }
  destruct r as [[]| |]; [|assumption..].
  destruct (get state "history" (JArr [])) as [th| |]; [|assumption..].
  destruct (iterate th ≫= _) as [h| |] eqn:Hcomp; [|assumption..].
  apply res_bind_Ok in Hcomp as (lh & _ & Hcomp%comprehension_linked).
  assert (wf (set_history h s2)) as Hwf3.
  { apply sound_empty_wf; [assumption..| simpl; rewrite Hu2; constructor]. }
  destruct (get state "undo_stack" (JArr [])) as [tu| |]; [|assumption..].
  simpl. destruct (iterate tu ≫= _) as [u| |] eqn:Hcompu; [|assumption..].
  apply res_bind_Ok in Hcompu as (lu & _ & Hcompu%comprehension_linked).
  by apply sound_empty_wf.
Qed.

(** X21: loading a file whose values have their declared types into a
    well-formed keyboard whose stacks are empty, as a new keyboard's are,
    leaves a well-formed session however the load ends: returning [True],
    returning [False] part of the way, or raising.  On such a file the load
    is followed to its end. *)
Theorem load_into_empty_stacks_is_well_formed (f : file) (s : session) :
  file_typed f = true →
  wf s → history s = [] → undo_stack s = [] →
  (load_state f s).1 ≠ Unmodelled ∧ wf (load_state f s).2.
Proof.
  intros Ht Hwf Hh Hu. split; [by apply load_state_typed|].
  unfold load_state. destruct f as [| |state]; try assumption.
  pose proof (load_body_keeps_wf state s Hwf Hh Hu) as H.
  by destruct (load_body state s) as [r s'].
Qed.

Lemma load_into_empty_stacks_is_well_formed_witness :
  let s := VirtualKeyboard.init "" [] in
  (file_typed (Parsed laser_snapshot) = true ∧
   wf s ∧ history s = [] ∧ undo_stack s = []) ∧
  (load_state (Parsed laser_snapshot) s).1 ≠ Unmodelled ∧
  wf (load_state (Parsed laser_snapshot) s).2.
Proof.
  intros s.
  split; [split; [reflexivity | split; [apply init_wf | split; reflexivity]]|].
  apply (load_into_empty_stacks_is_well_formed (Parsed laser_snapshot) s
           eq_refl (init_wf "") eq_refl eq_refl).
Defined.

Lemma run_length (ops : list op) (s s' : session) (outs : list string) :
  run ops s = Some (outs, s') → length outs = length ops.
Proof.
  revert s outs. induction ops as [|o ops IH]; intros s outs; cbn [run].
  - by intros [= <- _].
  - destruct (step o s) as [[out s1]|]; [|discriminate]. cbn [mbind option_bind].
    destruct (run ops s1) as [[outs1 s2]|] eqn:Hrun; [|discriminate].
    intros [= <- <-]. simpl. by rewrite (IH _ _ Hrun).
Qed.

(** X22: on a file whose values have their declared types, the script ends
    in one of two ways.  Either [load_state] raises and the script stops
    there; or [load_state] returns, with [True] or with [False], and the
    script goes on to log its twelve presses and the closing line, and what
    it saves can be loaded: [load_state] returns [True] on it, into any
    session, and saving the loaded session writes the same state again. *)
Theorem main_saves_a_loadable_state (f : file) :
  file_typed f = true →
  (∃ e, (load_state f (VirtualKeyboard.init "" [])).1 = Uncaught e ∧
        main f = Some (Crashed e)) ∨
  (∃ b log saved,
     (load_state f (VirtualKeyboard.init "" [])).1 = Returned b ∧
     main f = Some (Done log saved) ∧
     length log = 13 ∧
     ∀ target, ∃ s',
       load_state (Parsed saved) target = (Returned true, s') ∧
       KeyboardMemento.from_keyboard s' = Some saved).
Proof.
  intros Ht. unfold main.
  pose proof (load_state_typed f (VirtualKeyboard.init "" []) Ht) as Hmodel.
  assert (wf (load_state f (VirtualKeyboard.init "" [])).2) as Hwf.
  { unfold load_state. destruct f as [| |state]; try apply init_wf.
    pose proof (load_body_keeps_wf state (VirtualKeyboard.init "" [])
                  (init_wf "") eq_refl eq_refl) as H.
    by destruct (load_body state _) as [r0 s0]. }
  destruct (load_state f (VirtualKeyboard.init "" [])) as [r s]. simpl in Hmodel, Hwf.
  destruct r as [b|e|]; [right | left; by exists e | contradiction].
  destruct (run_wf (Press <$> main_keys) s Hwf) as (outs & s1 & Hrun & Hwf1).
  rewrite Hrun. cbn [mbind option_bind].
  destruct (from_keyboard_wf s1 Hwf1) as (items & Hsave & Hsaved).
  rewrite Hsave. cbn [mbind option_bind]. eexists b, _, _.
  split; [reflexivity|]. split; [reflexivity|]. split.
  - rewrite length_app, (run_length _ _ _ _ Hrun). reflexivity.
  - intros target.
    destruct (resave_snapshot s1 target items Hwf1 Hsaved) as (s' & Hl & Hs' & _).
    eauto.
Qed.

Lemma main_saves_a_loadable_state_witness :
  file_typed (Parsed laser_snapshot) = true ∧
  ((∃ e, (load_state (Parsed laser_snapshot) (VirtualKeyboard.init "" [])).1
           = Uncaught e ∧
         main (Parsed laser_snapshot) = Some (Crashed e)) ∨
   (∃ b log saved,
      (load_state (Parsed laser_snapshot) (VirtualKeyboard.init "" [])).1
        = Returned b ∧
      main (Parsed laser_snapshot) = Some (Done log saved) ∧
      length log = 13 ∧
      ∀ target, ∃ s',
        load_state (Parsed saved) target = (Returned true, s') ∧
        KeyboardMemento.from_keyboard s' = Some saved)).
Proof.
  split; [reflexivity|].
  apply (main_saves_a_loadable_state (Parsed laser_snapshot) eq_refl).
Defined.
